(** * Player Entry Alert service (server.js): entry detector, identifier
    resolver, one-shot status query and adaptive watcher.

    The development is a shallow embedding of [server.js].  JSON objects
    become records whose optional properties are [option] fields, the
    [watchers] Map becomes a [gmap], the per-watcher [state] object lives in
    an explicit store (the closure of [loop] and the registry alias it), and
    everything the event loop obtains from outside (the live feed, the
    clock, the time zone of the host, the outcome of a mail delivery) is an
    explicit input.

    Conventions.  Numbers are integers ([Z]); a counter or an identifier
    of the provider is a number when present, a lineup marker or an
    innings count a string when present.  [toLowerCase] acts on the ASCII
    letters.  A date [YYYY-MM-DD] is the number of its day since
    1970-01-01, an instant the number of milliseconds since then.  The
    part of [loop] that follows the feed request is one step: a stop
    request is served before it or after it. *)

From Stdlib Require Import ZArith Lia Bool Ascii String List.
From stdpp Require Import base option list gmap strings pretty.

Local Open Scope string_scope.
Local Open Scope Z_scope.

(** ** JavaScript strings *)

Module Js.

(** [String.prototype.toLowerCase], on the ASCII letters. *)
Definition lower (c : ascii) : ascii :=
  let n := nat_of_ascii c in
  if (Nat.leb 65 n && Nat.leb n 90)%bool then ascii_of_nat (n + 32) else c.

Fixpoint toLowerCase (s : string) : string :=
  match s with
  | EmptyString => EmptyString
  | String c r => String (lower c) (toLowerCase r)
  end.

(** [hay.includes(needle)]. *)
Fixpoint includes (hay needle : string) : bool :=
  String.prefix needle hay ||
  match hay with
  | EmptyString => false
  | String _ r => includes r needle
  end.

(** Truthiness of a value that is a string when present: [undefined],
    [null] and the empty string are falsy. *)
Definition truthy (v : option string) : bool :=
  match v with
  | Some s => negb (String.eqb s "")
  | None => false
  end.

(** [v || d] on such a value. *)
Definition or_else (v : option string) (d : string) : string :=
  if truthy v then default d v else d.

(** [v || null]. *)
Definition or_null (v : option string) : option string :=
  if truthy v then v else None.

(** [(x || 0) > 0] on a counter that is a number when present. *)
Definition positive_count (x : option Z) : bool :=
  match x with
  | Some n => 0 <? n
  | None => false
  end.

(** [a === b] where [a] may be [undefined] and [b] is a string. *)
Definition strict_eq (a : option string) (b : string) : bool :=
  match a with
  | Some s => String.eqb s b
  | None => false
  end.

End Js.

(** ** The event snapshot (live feed) *)

Record Person := { fullName : option string }.
Record Position := { abbreviation : option string }.

Record Batting :=
  { atBats : option Z; plateAppearances : option Z; hits : option Z;
    runs : option Z; rbi : option Z }.
Record Fielding :=
  { putOuts : option Z; assists : option Z; chances : option Z }.
Record Pitching :=
  { battersFaced : option Z; pitchesThrown : option Z;
    inningsPitched : option string }.
Record Stats :=
  { batting : option Batting; fielding : option Fielding;
    pitching : option Pitching }.

(** One roster entry of [boxscore.teams.<side>.players]. *)
Record Player :=
  { person : option Person;
    battingOrder : option string;
    position : option Position;
    stats : option Stats }.

(** [boxscore.teams.home] / [.away]; [players] lists the values of the
    [players] object in enumeration order. *)
Record Side := { players : option (list Player) }.

Record PlayResult := { description : option string }.
Record Play := { result : option PlayResult }.

(** The parts of the feed the service reads, each field standing for the
    optional chain that reaches it:
    [data?.gameData?.status?.detailedState],
    [data?.gameData?.teams?.home?.name], [...away?.name],
    [data?.liveData?.boxscore?.teams?.home], [...away],
    [data?.liveData?.plays?.allPlays]. *)
Record Feed :=
  { detailedState : option string;
    homeTeamName : option string;
    awayTeamName : option string;
    boxHome : option Side;
    boxAway : option Side;
    allPlays : option (list Play) }.

(** ** Entry detector *)

Definition noBatting : Batting :=
  {| atBats := None; plateAppearances := None; hits := None;
     runs := None; rbi := None |}.
Definition noFielding : Fielding :=
  {| putOuts := None; assists := None; chances := None |}.
Definition noPitching : Pitching :=
  {| battersFaced := None; pitchesThrown := None; inningsPitched := None |}.

(** [match?.stats?.batting || {}] and its two siblings. *)
Definition bat_of (m : Player) : Batting :=
  default noBatting (stats m ≫= batting).
Definition fld_of (m : Player) : Fielding :=
  default noFielding (stats m ≫= fielding).
Definition pit_of (m : Player) : Pitching :=
  default noPitching (stats m ≫= pitching).

Definition battingActivity (bat : Batting) : bool :=
  Js.positive_count (atBats bat) ||
  Js.positive_count (plateAppearances bat) ||
  Js.positive_count (hits bat) ||
  Js.positive_count (runs bat) ||
  Js.positive_count (rbi bat).

Definition fieldingActivity (fld : Fielding) : bool :=
  Js.positive_count (putOuts fld) ||
  Js.positive_count (assists fld) ||
  Js.positive_count (chances fld).

(** The last disjunct is [pit.inningsPitched && pit.inningsPitched !== '0.0'],
    read for its truthiness. *)
Definition pitchingActivity (pit : Pitching) : bool :=
  Js.positive_count (battersFaced pit) ||
  Js.positive_count (pitchesThrown pit) ||
  (Js.truthy (inningsPitched pit) &&
   negb (Js.strict_eq (inningsPitched pit) "0.0")).

Definition playerAppearedFromBoxscore (match_ : option Player) : bool :=
  match match_ with
  | None => false
  | Some m =>
      Js.truthy (battingOrder m) ||
      battingActivity (bat_of m) ||
      fieldingActivity (fld_of m) ||
      pitchingActivity (pit_of m)
  end.

Definition keywords : list string :=
  [ "defensive substitution";
    "pinch-hits"; "pinch hits";
    "pinch-running"; "pinch runs";
    "enters the game"; "replaces" ].

(** [(p?.result?.description || '').toLowerCase()]. *)
Definition desc_of (p : Play) : string :=
  Js.toLowerCase (Js.or_else (result p ≫= description) "").

(** The body of the [for] loop over the plays. *)
Fixpoint scanPlays (plays : list Play) (needle : string) : bool :=
  match plays with
  | [] => false
  | p :: rest =>
      let desc := desc_of p in
      if negb (Js.includes desc needle) then scanPlays rest needle
      else if existsb (fun k => Js.includes desc k) keywords then true
      else scanPlays rest needle
  end.

Definition playerAppearedFromPlays
    (plays : option (list Play)) (playerName : string) : bool :=
  match plays with
  | None | Some [] => false
  | Some ps =>
      if String.eqb playerName "" then false
      else scanPlays ps (Js.toLowerCase playerName)
  end.

(** [findByName]: the first entry whose full name equals the target name,
    both lowercased. *)
Definition findByName (playerName : string) (side : Side) : option Player :=
  find (fun p => Js.strict_eq (Js.toLowerCase <$> (person p ≫= fullName))
                              (Js.toLowerCase playerName))
       (default [] (players side)).

(** The "entered" signal as both callers compute it. *)
Definition entered (match_ : option Player) (plays : option (list Play))
    (playerName : string) : bool :=
  playerAppearedFromBoxscore match_ || playerAppearedFromPlays plays playerName.

(** ** Failure: a thrown [Error] or a rejected promise *)

(** A plain [Error], or an axios error, which may carry the provider's
    response ([e.response.status], [e.response.data.message]). *)
Inductive exn :=
| Error (message : string)
| AxiosError (message : string) (responseStatus : option Z)
             (responseMessage : option string).

Definition message_of (e : exn) : string :=
  match e with
  | Error m => m
  | AxiosError m _ _ => m
  end.

Inductive res (A : Type) :=
| Ok (a : A)
| Throw (e : exn).
Arguments Ok {A} a.
Arguments Throw {A} e.

Definition res_bind {A B} (r : res A) (k : A -> res B) : res B :=
  match r with
  | Ok a => k a
  | Throw e => Throw e
  end.

Notation "'await' x <- r ; k" := (res_bind r (fun x => k))
  (at level 10, x name, r at level 100, k at level 200).

(** ** Identifier resolver *)

Module Team.
(** One element of the provider's [teams] array. *)
Record t := { id : Z; name : string; teamName : option string }.
End Team.

(** [game] is [data.dates?.[0]?.games?.[0]] of a schedule response. *)
Record Game := { game_gamePk : Z; game_detailedState : option string }.

(** What [getScheduleForDate] returns when there is a game. A date is the
    day number of its [YYYY-MM-DD] string (days since 1970-01-01). *)
Record Hit := { gamePk : Z; status : string; date : Z }.

(** The event data client: the response of the teams request
    ([data.teams], absent when the property is) and of a schedule request
    for a team and a day. *)
Record DataClient :=
  { teamsResponse : res (option (list Team.t));
    scheduleResponse : Z -> Z -> res (option Game) }.

Definition ResolutionError (teamName : string) : exn :=
  Error ("Could not resolve team id for " ++ String "034"%char teamName ++
         String "034"%char ". Try entering a gamePk or enable Simulation Mode.").

Definition NoEventFoundError : exn :=
  Error "No game found for team near the given date".

Definition InvalidTime : exn := Error "Invalid time value".

(** [a || b] on two [find] results (an element of [teams] is an object,
    hence truthy). *)
Definition or_find {A} (a b : option A) : option A :=
  match a with
  | Some _ => a
  | None => b
  end.

Section Resolver.

(** [getTimezoneOffset()] of the host, in minutes (UTC minus local time:
    420 in Phoenix, 0 in UTC, -60 in Berlin in winter), taken constant over
    the days involved. *)
Variable tzOffset : Z.
Variable dc : DataClient.

Definition msPerDay : Z := 86400000.

(** [new Date('YYYY-MM-DD')]: a date-only string is read as midnight UTC
    of that day, whatever the time zone of the host. *)
Definition newDate (day : Z) : Z := day * msPerDay.

(** [d.setDate(d.getDate() + i)]: [getDate] and [setDate] work on the
    local calendar; the local day moves by [i] (months roll over) and the
    local time of day stays, so the instant moves by [i] days. *)
Definition setDate (d i : Z) : Z := d + i * msPerDay.

(** [ymd(d)]: the first ten characters of the ISO (UTC) string of
    [d.getTime() - d.getTimezoneOffset() * 60000], that is the local
    calendar day of [d]. *)
Definition ymd (d : Z) : Z := (d - tzOffset * 60000) / msPerDay.

Definition fetchTeamsAFL : res (list Team.t) :=
  await data <- teamsResponse dc; Ok (default [] data).

Definition findTeam (teams : list Team.t) (teamName : string)
  : option Team.t :=
  let q := Js.toLowerCase teamName in
  or_find
    (find (fun t => String.eqb (Js.toLowerCase (Team.name t)) q) teams)
    (or_find
       (find (fun t => String.eqb
                (Js.toLowerCase (Js.or_else (Team.teamName t) "")) q) teams)
       (find (fun t => Js.includes (Js.toLowerCase (Team.name t)) q) teams)).

Definition getTeamIdByName (teamName : string) : res Z :=
  await teams <- fetchTeamsAFL;
  match findTeam teams teamName with
  | None => Throw (ResolutionError teamName)
  | Some hit => Ok (Team.id hit)
  end.

Definition getScheduleForDate (teamId day : Z) : res (option Hit) :=
  await game <- scheduleResponse dc teamId day;
  Ok (match game with
      | Some g =>
          Some {| gamePk := game_gamePk g;
                  status := Js.or_else (game_detailedState g) "Scheduled";
                  date := day |}
      | None => None
      end).

(** [h?.gamePk], read for its truthiness. *)
Definition hasGamePk (h : option Hit) : option Hit :=
  match h with
  | Some x => if gamePk x =? 0 then None else Some x
  | None => None
  end.

(** One [for (let i = 1; i <= 3; i++)] loop; [sign] is [-1] for the
    backward loop and [1] for the forward one, [steps] the values of [i]
    still to run, and [test] the condition under which the loop returns
    ([back?.gamePk] in [resolveGamePkIfNeeded], [found] in the route). *)
Fixpoint searchDays (test : option Hit -> option Hit)
    (teamId day sign : Z) (steps : list Z) : res (option Hit) :=
  match steps with
  | [] => Ok None
  | i :: rest =>
      let d := setDate (newDate day) (sign * i) in
      await h <- getScheduleForDate teamId (ymd d);
      match test h with
      | Some x => Ok (Some x)
      | None => searchDays test teamId day sign rest
      end
  end.

(** [resolveGamePkIfNeeded(team, date, gamePk, simulate)]. [date] is
    [None] for a value [new Date] does not parse ([undefined], the empty
    string): the exact query then asks for [today], and the first
    [ymd(d)] throws. *)
Definition resolveGamePkIfNeeded (today : Z) (team : string)
    (date : option Z) (gamePk_ : option string) (simulate : bool)
  : res string :=
  if simulate then Ok "(simulation)"
  else if Js.truthy gamePk_ then Ok (default "" gamePk_)
  else
    await teamId <- getTeamIdByName team;
    await exact <- getScheduleForDate teamId (default today date);
    match hasGamePk exact with
    | Some x => Ok (pretty (gamePk x))
    | None =>
        match date with
        | None => Throw InvalidTime
        | Some day =>
            await back <- searchDays hasGamePk teamId day (-1) [1; 2; 3];
            match back with
            | Some x => Ok (pretty (gamePk x))
            | None =>
                await fwd <- searchDays hasGamePk teamId day 1 [1; 2; 3];
                match fwd with
                | Some x => Ok (pretty (gamePk x))
                | None => Throw NoEventFoundError
                end
            end
        end
    end.

(** What [GET /api/afl/gamePk] answers. *)
Inductive GamePkReply :=
| ReplyGame (h : Hit)
| ReplyNoGame (status_ : string) (date_ : Z)
| ReplyError (httpStatus : Z) (error : string).

(** The route [GET /api/afl/gamePk]; [team] and [baseDate] are the query
    values after their defaults. *)
Definition aflGamePk (team : string) (baseDate : Z) : GamePkReply :=
  let run : res GamePkReply :=
    await teamId <- getTeamIdByName team;
    await exact <- getScheduleForDate teamId baseDate;
    match exact with
    | Some x => Ok (ReplyGame x)
    | None =>
        await back <- searchDays (fun h => h) teamId baseDate (-1) [1; 2; 3];
        match back with
        | Some x => Ok (ReplyGame x)
        | None =>
            await fwd <- searchDays (fun h => h) teamId baseDate 1 [1; 2; 3];
            match fwd with
            | Some x => Ok (ReplyGame x)
            | None => Ok (ReplyNoGame "No game found in +/-3 days" baseDate)
            end
        end
    end in
  match run with
  | Ok r => r
  | Throw e => ReplyError 500 (message_of e)
  end.

(** The days [resolveGamePkIfNeeded] asks the schedule for, in order,
    when none of them has a game. *)
Definition queriedDays (day : Z) : list Z :=
  (day :: map (fun i => ymd (setDate (newDate day) (-1 * i))) [1; 2; 3]
       ++ map (fun i => ymd (setDate (newDate day) (1 * i))) [1; 2; 3])%list.

End Resolver.

(** ** One-shot status query and the watcher's status function *)

Module Status.
(** What [getStatusOnce] returns. *)
Record t :=
  { inGame : bool;
    side : option string;
    battingOrder : option string;
    position : option string;
    rawGameState : string }.
End Status.

Definition simulatedStatus : Status.t :=
  {| Status.inGame := true;
     Status.side := Some "home";
     Status.battingOrder := Some "501";
     Status.position := Some "2B";
     Status.rawGameState := "In Progress (Simulated)" |}.

(** The query string of [GET /api/playerStatus]. *)
Record StatusQuery :=
  { q_gamePk : option string;
    q_playerName : option string;
    q_team : option string;
    q_simulate : option string }.

Inductive StatusBody :=
| SimulatedBody (player : string) (st : Status.t)
| ErrorBody (error : string)
| TeamMismatchBody (error : string) (home away : string) (code : string)
| NoBoxscoreBody (player : string) (rawGameState : string) (reason : string)
| PlayerNotInGameBody (error : string) (code : string)
                      (rawGameState : string) (home away : string)
| StatusBodyOf (player : string) (st : Status.t).

Record Response := { httpStatus : Z; body : StatusBody }.

Definition json (b : StatusBody) : Response :=
  {| httpStatus := 200; body := b |}.

(** [e?.response?.status || 500] and
    [e?.response?.data?.message || e.message || 'Unknown error']. *)
Definition statusOfExn (e : exn) : Z :=
  match e with
  | AxiosError _ (Some s) _ => if s =? 0 then 500 else s
  | _ => 500
  end.

Definition msgOfExn (e : exn) : string :=
  match e with
  | AxiosError m _ rm =>
      if Js.truthy rm then default "" rm
      else if String.eqb m "" then "Unknown error" else m
  | Error m => if String.eqb m "" then "Unknown error" else m
  end.

Definition sideName (h a : option Player) : option string :=
  match h, a with
  | Some _, _ => Some "home"
  | None, Some _ => Some "away"
  | None, None => None
  end.

(** [getStatusOnce({ gamePk, playerName, team, simulate })]; [fetched] is
    the outcome of [fetchLiveFeed(gamePk)], awaited only when [simulate] is
    falsy. *)
Definition getStatusOnce (fetched : res Feed) (playerName : string)
    (simulate : bool) : res Status.t :=
  if simulate then Ok simulatedStatus
  else
    await data <- fetched;
    let state := Js.or_else (detailedState data) "Unknown" in
    let found : option string * option Player :=
      match boxHome data, boxAway data with
      | Some home, Some away =>
          let h := findByName playerName home in
          let a := findByName playerName away in
          (sideName h a, or_find h a)
      | _, _ => (None, None)
      end in
    let side := fst found in
    let match_ := snd found in
    let entered_ := entered match_ (allPlays data) playerName in
    Ok {| Status.inGame := entered_;
          Status.side := side;
          Status.battingOrder := Js.or_null (match_ ≫= battingOrder);
          Status.position :=
            Js.or_null ((match_ ≫= position) ≫= abbreviation);
          Status.rawGameState := state |}.

Definition quoted (s : string) : string :=
  String "034"%char s ++ String "034"%char EmptyString.

(** The route [GET /api/playerStatus]; [fetched] is the outcome of
    [fetchLiveFeed(gamePk)], awaited only when the route reaches it. *)
Definition playerStatus (q : StatusQuery) (fetched : res Feed) : Response :=
  if Js.strict_eq (q_simulate q) "1" then
    json (SimulatedBody (Js.or_else (q_playerName q) "Sample Player")
                        simulatedStatus)
  else if negb (Js.truthy (q_gamePk q)) || negb (Js.truthy (q_playerName q))
  then {| httpStatus := 400;
          body := ErrorBody
            "gamePk and playerName are required (or use simulate=1)" |}
  else
    let gamePk_ := default "" (q_gamePk q) in
    let playerName := default "" (q_playerName q) in
    match fetched with
    | Throw e => {| httpStatus := statusOfExn e; body := ErrorBody (msgOfExn e) |}
    | Ok data =>
        let state := Js.or_else (detailedState data) "Unknown" in
        let homeName := Js.or_else (homeTeamName data) "" in
        let awayName := Js.or_else (awayTeamName data) "" in
        let matchesTeam :=
          match q_team q with
          | Some team =>
              if Js.truthy (Some team) then
                let t := Js.toLowerCase team in
                Js.includes (Js.toLowerCase homeName) t ||
                Js.includes (Js.toLowerCase awayName) t
              else true
          | None => true
          end in
        if negb matchesTeam then
          {| httpStatus := 409;
             body := TeamMismatchBody
               ("Team mismatch: " ++ quoted (default "" (q_team q)) ++
                " not found in this game.")
               homeName awayName "TEAM_MISMATCH" |}
        else
          match boxHome data, boxAway data with
          | Some home, Some away =>
              let homeMatch := findByName playerName home in
              let awayMatch := findByName playerName away in
              match or_find homeMatch awayMatch with
              | None =>
                  {| httpStatus := 404;
                     body := PlayerNotInGameBody
                       ("Player " ++ quoted playerName ++
                        " not listed on either roster for gamePk " ++
                        gamePk_ ++ ".")
                       "PLAYER_NOT_IN_GAME" state homeName awayName |}
              | Some m =>
                  let whichSide :=
                    match homeMatch with
                    | Some _ => "home"
                    | None => "away"
                    end in
                  json (StatusBodyOf playerName
                    {| Status.inGame :=
                         entered (Some m) (allPlays data) playerName;
                       Status.side := Some whichSide;
                       Status.battingOrder := Js.or_null (battingOrder m);
                       Status.position :=
                         Js.or_null (position m ≫= abbreviation);
                       Status.rawGameState := state |})
              end
          | _, _ =>
              json (NoBoxscoreBody playerName state
                      "Boxscore not available yet")
          end
    end.

(** ** Real-time watcher (adaptive) *)

Definition POLL_FAST : Z := 5000.
Definition POLL_SLOW : Z := 30000.
Definition POLL_FINAL : Z := 60000.

Module Params.
(** The [params] object handed to [startAdaptiveWatcher]; the two last
    properties may be [undefined]. *)
Record t :=
  { team : string;
    playerName : string;
    date : option Z;
    gamePk : string;
    simulate : bool;
    emailTo : option string;
    cooldownSec : option Z;
    stopAfterAlert : option bool }.
End Params.

Module Watch.
(** The [state] object of one watcher. [timer] is [Some ms] while a
    timeout that will call [loop] after [ms] milliseconds is pending, and
    [None] when there is none ([null], a cleared handle, a handle that
    has fired). *)
Record state :=
  { id : string;
    params : Params.t;
    lastInGame : bool;
    lastAlertAt : Z;
    stopped : bool;
    timer : option Z }.

Definition set_lastInGame (b : bool) (s : state) : state :=
  {| id := id s; params := params s; lastInGame := b;
     lastAlertAt := lastAlertAt s; stopped := stopped s; timer := timer s |}.
Definition set_lastAlertAt (t : Z) (s : state) : state :=
  {| id := id s; params := params s; lastInGame := lastInGame s;
     lastAlertAt := t; stopped := stopped s; timer := timer s |}.
Definition set_stopped (b : bool) (s : state) : state :=
  {| id := id s; params := params s; lastInGame := lastInGame s;
     lastAlertAt := lastAlertAt s; stopped := b; timer := timer s |}.
Definition set_timer (t : option Z) (s : state) : state :=
  {| id := id s; params := params s; lastInGame := lastInGame s;
     lastAlertAt := lastAlertAt s; stopped := stopped s; timer := t |}.
End Watch.

(** The process-wide state: the [watchers] Map, the [state] objects it and
    the [loop] closures refer to (an object is named by the counter value
    it was created under), and [nextWatchId]. *)
Record World :=
  { watchers : gmap string N;
    store : gmap N Watch.state;
    nextWatchId : N }.

Definition initialWorld : World :=
  {| watchers := ∅; store := ∅; nextWatchId := 1%N |}.

Definition modify (l : N) (f : Watch.state -> Watch.state) (w : World)
  : World :=
  {| watchers := watchers w;
     store := alter f l (store w);
     nextWatchId := nextWatchId w |}.

(** What [loop] closes over: [id], the [state] object and the destructured
    parameters with their defaults applied. *)
Record Closure :=
  { c_id : string;
    c_state : N;
    c_team : string;
    c_playerName : string;
    c_gamePk : string;
    c_simulate : bool;
    c_emailTo : option string;
    c_cooldownSec : Z;
    c_stopAfterAlert : bool }.

(** What one run of [loop] gets from outside: the outcome of the feed
    request, [Date.now()], [new Date().toLocaleString()], and the outcome
    of [sendEmail] should it be called ([None]: delivered). *)
Record Poll :=
  { fetched : res Feed;
    now : Z;
    nowText : string;
    sendFailure : option exn }.

(** What one run of [loop] does to the outside. [Alert] marks the alert
    decision (the call of [formatAlertText]); the other two are the mail
    handed to the provider and a line on [console.error]. *)
Inductive event :=
| Alert (at_ : Z) (subject html : string)
| EmailSent (to subject html : string)
| ConsoleError (text : string).

Definition dash (v : option string) : string := Js.or_else v "-".

Definition formatAlertText (team playerName gamePk_ : string)
    (status_ : Status.t) (nowText_ : string) : string * string :=
  let nl := String "010"%char EmptyString in
  let hdr := "ALERT: " ++ playerName ++ " just entered the game" in
  let body_ :=
    "Team: " ++ team ++ nl ++
    "GamePk: " ++ gamePk_ ++ nl ++
    "When: " ++ nowText_ ++ nl ++
    "Side: " ++ dash (Status.side status_) ++ nl ++
    "Batting Order: " ++ dash (Status.battingOrder status_) ++ nl ++
    "Position: " ++ dash (Status.position status_) ++ nl ++
    "State: " ++ dash (Some (Status.rawGameState status_)) in
  (hdr, "<h2>" ++ hdr ++ "</h2><pre>" ++ body_ ++ "</pre>").

Definition scheduleNext (c : Closure) (ms : Z) (w : World) : World :=
  match store w !! c_state c with
  | Some st =>
      if Watch.stopped st then w
      else modify (c_state c) (Watch.set_timer (Some ms)) w
  | None => w
  end.

Definition stopWatcher (id_ : string) (w : World) : World * bool :=
  match watchers w !! id_ with
  | None => (w, false)
  | Some l =>
      let w1 := modify l (Watch.set_stopped true) w in
      let w2 := modify l (Watch.set_timer None) w1 in
      ({| watchers := delete id_ (watchers w2);
          store := store w2;
          nextWatchId := nextWatchId w2 |}, true)
  end.

Definition intervalFor (rawGameState : string) : Z :=
  let st := Js.toLowerCase (Js.or_else (Some rawGameState) "") in
  if Js.includes st "progress" then POLL_FAST
  else if Js.includes st "final" then POLL_FINAL
  else POLL_SLOW.

(** The mail step of the alert branch. *)
Definition mailEvents (c : Closure) (p : Poll) (subject html : string)
  : list event :=
  match c_emailTo c with
  | Some to =>
      if Js.truthy (Some to) then
        match sendFailure p with
        | None => [EmailSent to subject html]
        | Some e => [ConsoleError ("Email error: " ++ message_of e)]
        end
      else []
  | None => []
  end.

(** One run of [loop], from the completion of the feed request on. A
    closure always holds its [state] object; the [None] branch is there
    for totality. *)
Definition loop (c : Closure) (p : Poll) (w : World) : World * list event :=
  match getStatusOnce (fetched p) (c_playerName c) (c_simulate c) with
  | Throw e =>
      (scheduleNext c POLL_SLOW w,
       [ConsoleError ("Watcher error: " ++ message_of e)])
  | Ok s =>
      let interval := intervalFor (Status.rawGameState s) in
      let continue (w0 : World) (evs : list event) :=
        (scheduleNext c interval
           (modify (c_state c) (Watch.set_lastInGame (Status.inGame s)) w0),
         evs) in
      match store w !! c_state c with
      | None => (w, [])
      | Some st =>
          if negb (Watch.lastInGame st) && Status.inGame s then
            if c_cooldownSec c * 1000 <=? now p - Watch.lastAlertAt st then
              let '(subject, html) :=
                formatAlertText (c_team c) (c_playerName c) (c_gamePk c)
                                s (nowText p) in
              let evs := Alert (now p) subject html
                         :: mailEvents c p subject html in
              let w1 := modify (c_state c) (Watch.set_lastAlertAt (now p)) w in
              if c_stopAfterAlert c then (fst (stopWatcher (c_id c) w1), evs)
              else continue w1 evs
            else continue w []
          else continue w []
      end
  end.

(** [startAdaptiveWatcher(params)]: the new world, the returned id and
    the closure whose first [loop()] is now waiting for its feed. *)
Definition startAdaptiveWatcher (params_ : Params.t) (w : World)
  : World * string * Closure :=
  let n := nextWatchId w in
  let id_ := pretty n in
  let state_ :=
    {| Watch.id := id_; Watch.params := params_;
       Watch.lastInGame := false; Watch.lastAlertAt := 0;
       Watch.stopped := false; Watch.timer := None |} in
  let c :=
    {| c_id := id_; c_state := n;
       c_team := Params.team params_;
       c_playerName := Params.playerName params_;
       c_gamePk := Params.gamePk params_;
       c_simulate := Params.simulate params_;
       c_emailTo := Params.emailTo params_;
       c_cooldownSec := default 300 (Params.cooldownSec params_);
       c_stopAfterAlert := default true (Params.stopAfterAlert params_) |} in
  ({| watchers := <[id_ := n]> (watchers w);
      store := <[n := state_]> (store w);
      nextWatchId := (n + 1)%N |}, id_, c).

(** One entry of the array [GET /api/watch] answers with. *)
Record Summary :=
  { s_id : string;
    s_playerName : string;
    s_team : string;
    s_gamePk : string;
    s_simulate : bool;
    s_lastInGame : bool;
    s_lastAlertAt : Z }.

Definition summary (st : Watch.state) : Summary :=
  {| s_id := Watch.id st;
     s_playerName := Params.playerName (Watch.params st);
     s_team := Params.team (Watch.params st);
     s_gamePk := Params.gamePk (Watch.params st);
     s_simulate := Params.simulate (Watch.params st);
     s_lastInGame := Watch.lastInGame st;
     s_lastAlertAt := Watch.lastAlertAt st |}.

(** [GET /api/watch]: the summaries of the registered watchers (the order
    of the Map's iteration is not modelled). *)
Definition listWatchers (w : World) : list Summary :=
  omap (fun kl => summary <$> store w !! kl.2) (map_to_list (watchers w)).

(** The timeout of a watcher fires: it is no longer pending. *)
Definition fire (c : Closure) (w : World) : World :=
  modify (c_state c) (Watch.set_timer None) w.

Definition pending (c : Closure) (w : World) : bool :=
  match store w !! c_state c with
  | Some st => bool_decide (is_Some (Watch.timer st))
  | None => false
  end.

(** The life of one watcher from its creation, left to itself (no stop
    request comes in): the first [loop()] is already under way; each later
    run happens when the timeout set by the run before it fires, and none
    happens once no timeout is pending. The result lists the events of
    each run that took place. *)
Fixpoint run (c : Closure) (polls : list Poll) (w : World)
  : World * list (list event) :=
  match polls with
  | [] => (w, [])
  | p :: rest =>
      let '(w1, evs) := loop c p w in
      if pending c w1 then
        let '(w2, more) := run c rest (fire c w1) in (w2, evs :: more)
      else (w1, [evs])
  end.

(** ** Routes of the watcher *)

(** The body of [POST /api/watch/start]; a property is [None] when it is
    [undefined]. A date that is given is a well-formed [YYYY-MM-DD]. *)
Record StartBody :=
  { b_team : option string;
    b_playerName : option string;
    b_date : option Z;
    b_gamePk : option string;
    b_simulate : option bool;
    b_emailTo : option string;
    b_cooldownSec : option Z;
    b_stopAfterAlert : option bool }.

Inductive StartReply :=
| StartOk (id_ gamePk_ : string)
| StartError (httpStatus_ : Z) (error_ : string).

(** The route [POST /api/watch/start]: the world after it, its answer and,
    when a watcher was started, the closure whose first [loop()] is under
    way. [today] is [ymd(new Date())]. *)
Definition watchStart (tz : Z) (dc : DataClient) (today : Z)
    (b : StartBody) (w : World) : World * StartReply * option Closure :=
  let team := default "Glendale Desert Dogs" (b_team b) in
  let date_ := default today (b_date b) in
  let simulate := default false (b_simulate b) in
  let cooldownSec := default 300 (b_cooldownSec b) in
  let stopAfterAlert := default true (b_stopAfterAlert b) in
  if negb (Js.truthy (b_playerName b)) then
    (w, StartError 400 "playerName is required", None)
  else
    let playerName := default "" (b_playerName b) in
    match resolveGamePkIfNeeded tz dc today team (Some date_)
                                (b_gamePk b) simulate with
    | Throw e => (w, StartError 400 (message_of e), None)
    | Ok pk =>
        let '(w', id_, c) :=
          startAdaptiveWatcher
            {| Params.team := team;
               Params.playerName := playerName;
               Params.date := Some date_;
               Params.gamePk := pk;
               Params.simulate := simulate;
               Params.emailTo := b_emailTo b;
               Params.cooldownSec := Some cooldownSec;
               Params.stopAfterAlert := Some stopAfterAlert |} w in
        (w', StartOk id_ pk, Some c)
    end.

Inductive StopReply :=
| StopOk (ok : bool)
| StopError (httpStatus_ : Z) (error_ : string).

(** The route [POST /api/watch/stop]; [id_] is the [id] of the body. *)
Definition watchStop (id_ : option string) (w : World) : World * StopReply :=
  if negb (Js.truthy id_) then (w, StopError 400 "id is required")
  else
    let '(w', ok) := stopWatcher (default "" id_) w in (w', StopOk ok).

(** ** Mail *)

(** The two SendGrid variables of the environment. *)
Record MailConfig :=
  { SENDGRID_API_KEY : option string;
    SENDGRID_FROM : option string }.

(** The message handed to [sgMail.send]. *)
Record Mail :=
  { m_to : string; m_from : string; m_subject : string; m_html : string }.

(** [sendEmail(to, subject, html)]: its outcome and the messages handed to
    the provider; [delivery] is the provider's failure, if any. *)
Definition sendEmail (cfg : MailConfig) (delivery : option exn)
    (to subject html : string) : res unit * list Mail :=
  if negb (Js.truthy (SENDGRID_API_KEY cfg)) ||
     negb (Js.truthy (SENDGRID_FROM cfg))
  then (Throw (Error "SendGrid is not configured"), [])
  else
    (match delivery with
     | None => Ok tt
     | Some e => Throw e
     end,
     [{| m_to := to; m_from := default "" (SENDGRID_FROM cfg);
         m_subject := subject; m_html := html |}]).

(** The body of [POST /api/test/email]. *)
Record TestMailBody :=
  { tm_to : option string; tm_subject : option string;
    tm_html : option string }.

Inductive TestMailReply :=
| TestMailOk
| TestMailError (httpStatus_ : Z) (error_ : string).

Definition missingTo : string :=
  "Missing " ++ quoted "to" ++ " email address".

(** The default subject ends with a check-mark emoji, here its three
    UTF-8 bytes. *)
Definition defaultTestSubject : string :=
  "Test Email from Player Alert System " ++
  String "226"%char (String "156"%char (String "133"%char EmptyString)).

Definition defaultTestHtml : string :=
  "<h2>Test Email</h2><p>This is a test from the Player Alert System.</p>".

(** The route [POST /api/test/email]. *)
Definition testEmail (cfg : MailConfig) (delivery : option exn)
    (b : TestMailBody) : TestMailReply * list Mail :=
  if negb (Js.truthy (tm_to b)) then
    (TestMailError 400 missingTo, [])
  else
    let subj := Js.or_else (tm_subject b) defaultTestSubject in
    let body_ := Js.or_else (tm_html b) defaultTestHtml in
    match sendEmail cfg delivery (default "" (tm_to b)) subj body_ with
    | (Ok _, sent) => (TestMailOk, sent)
    | (Throw e, sent) => (TestMailError 400 (message_of e), sent)
    end.

(** ** Vocabulary of the statements *)

(** The ten fixed counters of a roster entry, read through the optional
    chain [stats.<group>.<counter>]. *)
Definition batCounter (f : Batting -> option Z) (m : Player) : option Z :=
  (stats m ≫= batting) ≫= f.
Definition fldCounter (f : Fielding -> option Z) (m : Player) : option Z :=
  (stats m ≫= fielding) ≫= f.
Definition pitCounter (f : Pitching -> option Z) (m : Player) : option Z :=
  (stats m ≫= pitching) ≫= f.

Definition fixedCounters (m : Player) : list (option Z) :=
  [ batCounter atBats m; batCounter plateAppearances m; batCounter hits m;
    batCounter runs m; batCounter rbi m;
    fldCounter putOuts m; fldCounter assists m; fldCounter chances m;
    pitCounter battersFaced m; pitCounter pitchesThrown m ].

Definition inningsPitchedOf (m : Player) : option string :=
  (stats m ≫= pitching) ≫= inningsPitched.

(** A counter is greater than zero. *)
Definition counts (c : option Z) : Prop := exists n, c = Some n /\ 0 < n.

(** A counter is zero or absent. *)
Definition zeroOrAbsent (c : option Z) : Prop := c = None \/ c = Some 0.

(** A value is present and not the empty string. *)
Definition nonEmpty (v : option string) : Prop :=
  exists s, v = Some s /\ s <> "".

(** No play description mentions the name (both lowercased). *)
Definition noMention (plays : option (list Play)) (playerName : string)
  : Prop :=
  forall p, In p (default [] plays) ->
    Js.includes (desc_of p) (Js.toLowerCase playerName) = false.

(** [t] is the first element of [l] with property [P]. *)
Definition firstWith {A} (P : A -> Prop) (l : list A) (t : A) : Prop :=
  exists pre post,
    l = (pre ++ t :: post)%list /\ Forall (fun x => ~ P x) pre /\ P t.

(** The three matching strategies on a team [t] for the name [q]. *)
Definition exactMatch (q : string) (t : Team.t) : Prop :=
  Js.toLowerCase (Team.name t) = Js.toLowerCase q.

Definition shortMatch (q : string) (t : Team.t) : Prop :=
  Js.toLowerCase (Js.or_else (Team.teamName t) "") = Js.toLowerCase q.

Definition substringMatch (q : string) (t : Team.t) : Prop :=
  Js.includes (Js.toLowerCase (Team.name t)) (Js.toLowerCase q) = true.

(** The three tests of [findTeam], by name. *)
Definition exactb (q : string) (t : Team.t) : bool :=
  String.eqb (Js.toLowerCase (Team.name t)) (Js.toLowerCase q).

Definition shortb (q : string) (t : Team.t) : bool :=
  String.eqb (Js.toLowerCase (Js.or_else (Team.teamName t) ""))
             (Js.toLowerCase q).

Definition subb (q : string) (t : Team.t) : bool :=
  Js.includes (Js.toLowerCase (Team.name t)) (Js.toLowerCase q).

(** The identifier of the first day of [days] that has a game (one with a
    truthy [gamePk]) in the schedule [sched]. *)
Fixpoint firstScheduled (sched : Z -> option Game) (days : list Z)
  : option Z :=
  match days with
  | [] => None
  | d :: rest =>
      match sched d with
      | Some g =>
          if game_gamePk g =? 0 then firstScheduled sched rest
          else Some (game_gamePk g)
      | None => firstScheduled sched rest
      end
  end.

(** The order the specification asks for. *)
Definition specOrder (day : Z) : list Z :=
  [day; day - 1; day - 2; day - 3; day + 1; day + 2; day + 3].

(** No entry of the roster [side] carries the name (both lowercased). *)
Definition noRosterEntry (playerName : string) (side : Side) : Prop :=
  forall p, In p (default [] (players side)) ->
    Js.toLowerCase <$> (person p ≫= fullName)
    <> Some (Js.toLowerCase playerName).

(** The entity has no roster entry the status functions could find: a
    side of the boxscore is missing, or neither roster carries the name. *)
Definition onNeitherRoster (playerName : string) (data : Feed) : Prop :=
  boxHome data = None \/ boxAway data = None \/
  exists home away,
    boxHome data = Some home /\ boxAway data = Some away /\
    noRosterEntry playerName home /\ noRosterEntry playerName away.

(** The query has no team filter, or an empty one, or one that the name of
    the home or of the away team contains (lowercased). *)
Definition teamFilterPasses (q : StatusQuery) (data : Feed) : Prop :=
  forall t, q_team q = Some t -> t <> "" ->
    Js.includes (Js.toLowerCase (Js.or_else (homeTeamName data) ""))
                (Js.toLowerCase t) = true \/
    Js.includes (Js.toLowerCase (Js.or_else (awayTeamName data) ""))
                (Js.toLowerCase t) = true.

(** The times of the alert decisions among the events of one run of
    [loop], and their number. *)
Definition alertTimes (evs : list event) : list Z :=
  omap (fun e => match e with
                 | Alert t _ _ => Some t
                 | _ => None
                 end) evs.

Definition alerts (evs : list event) : nat := length (alertTimes evs).

(** The [state] object of a closure, the status its poll observes, and
    whether its watcher is in the registry. *)
Definition stateOf (c : Closure) (w : World) : option Watch.state :=
  store w !! c_state c.

Definition statusOf (c : Closure) (p : Poll) : res Status.t :=
  getStatusOnce (fetched p) (c_playerName c) (c_simulate c).

Definition registered (c : Closure) (w : World) : Prop :=
  watchers w !! c_id c = Some (c_state c).

(** A successful poll that observes the entity active. *)
Definition active (c : Closure) (p : Poll) : Prop :=
  exists s, statusOf c p = Ok s /\ Status.inGame s = true.

(** The same poll with another outcome of the mail delivery. *)
Definition withSend (f : option exn) (p : Poll) : Poll :=
  {| fetched := fetched p; now := now p; nowText := nowText p;
     sendFailure := f |}.

(** The subject and body of the alert for a status. *)
Definition alertText (c : Closure) (p : Poll) (s : Status.t)
  : string * string :=
  formatAlertText (c_team c) (c_playerName c) (c_gamePk c) s (nowText p).

(** Each time of [ts] is at least [gap] after the one before it, the
    first at least [gap] after [last]. *)
Fixpoint spaced (gap last : Z) (ts : list Z) : Prop :=
  match ts with
  | [] => True
  | t :: rest => gap <= t - last /\ spaced gap t rest
  end.

(** The times of all the alerts of a run, in order. *)
Definition allAlertTimes (evss : list (list event)) : list Z :=
  concat (map alertTimes evss).

(** What holds of every world the service can reach: a registered id is
    the decimal of the counter value its [state] object was created
    under, and that object has not been stopped; every [state] object was
    created under a counter value below [nextWatchId], carries the decimal
    of that value as its [id], and is either still registered or stopped
    with no timeout pending. *)
Definition world_ok (w : World) : Prop :=
  (forall k l, watchers w !! k = Some l ->
     k = pretty l /\
     exists st, store w !! l = Some st /\ Watch.stopped st = false) /\
  (forall l st, store w !! l = Some st ->
     (l < nextWatchId w)%N /\ Watch.id st = pretty l /\
     (watchers w !! pretty l = Some l \/
      (Watch.stopped st = true /\ Watch.timer st = None))).

(** What the service does to its world: a watcher is started, a stop
    request is served, a poll of some watcher completes, a timeout
    fires. *)
Inductive step : World -> World -> Prop :=
| step_start params_ w :
    step w (fst (fst (startAdaptiveWatcher params_ w)))
| step_stop id_ w : step w (fst (stopWatcher id_ w))
| step_loop c p w : step w (fst (loop c p w))
| step_fire c w : step w (fire c w).

Inductive reachable : World -> Prop :=
| reach_initial : reachable initialWorld
| reach_step w w' : reachable w -> step w w' -> reachable w'.

(** A field update that keeps [id] and [stopped], and keeps the timer or
    clears it. *)
Definition benign (f : Watch.state -> Watch.state) : Prop :=
  forall st, Watch.id (f st) = Watch.id st /\
             Watch.stopped (f st) = Watch.stopped st /\
             (Watch.timer (f st) = Watch.timer st \/ Watch.timer (f st) = None).

(** A play announces the entity: its description (lowercased) mentions
    the name (lowercased) and holds one of the substitution phrases. *)
Definition announces (playerName : string) (p : Play) : Prop :=
  Js.includes (desc_of p) (Js.toLowerCase playerName) = true /\
  exists k, In k keywords /\ Js.includes (desc_of p) k = true.

(** A roster entry carries the name (both lowercased); a roster has such
    an entry. *)
Definition namedAs (playerName : string) (p : Player) : Prop :=
  Js.toLowerCase <$> (person p ≫= fullName)
  = Some (Js.toLowerCase playerName).

Definition onRoster (playerName : string) (side : Side) : Prop :=
  exists p, In p (default [] (players side)) /\ namedAs playerName p.

(** The status both status functions report for the roster entry [m]
    found on the side called [sideName_]. *)
Definition statusFor (data : Feed) (playerName sideName_ : string)
    (m : Player) : Status.t :=
  {| Status.inGame := entered (Some m) (allPlays data) playerName;
     Status.side := Some sideName_;
     Status.battingOrder := Js.or_null (battingOrder m);
     Status.position := Js.or_null (position m ≫= abbreviation);
     Status.rawGameState := Js.or_else (detailedState data) "Unknown" |}.

(** What [POST /api/watch/start] asks the resolver, after the defaults of
    its body. *)
Definition resolvedPk (tz : Z) (dc : DataClient) (today : Z)
    (b : StartBody) : res string :=
  resolveGamePkIfNeeded tz dc today
    (default "Glendale Desert Dogs" (b_team b))
    (Some (default today (b_date b)))
    (b_gamePk b) (default false (b_simulate b)).

(** The mails handed to the provider among the events of one run of
    [loop]: addressee and subject. *)
Definition mails (evs : list event) : list (string * string) :=
  omap (fun e => match e with
                 | EmailSent to subject _ => Some (to, subject)
                 | _ => None
                 end) evs.

(** In the runs of a watcher, an alert is decided in the last run at
    most, and there once. *)
Definition alertOnlyInLastRun (evss : list (list event)) : Prop :=
  forall before evs after,
    evss = (before ++ evs :: after)%list ->
    alerts evs <> 0%nat -> after = [] /\ alerts evs = 1%nat.

(** ** Sample data *)

(** A roster entry with nothing but a lineup marker. *)
Definition markerOnly (bo : string) : Player :=
  {| person := Some {| fullName := Some "Cade Doughty" |};
     battingOrder := Some bo;
     position := None;
     stats := None |}.

(** A bench player: on the roster, no marker, zeroed counters, and a play
    that is about somebody else. *)
Definition benchPlayer : Player :=
  {| person := Some {| fullName := Some "Cade Doughty" |};
     battingOrder := None;
     position := Some {| abbreviation := Some "2B" |};
     stats := Some
       {| batting := Some {| atBats := Some 0; plateAppearances := Some 0;
                             hits := Some 0; runs := None; rbi := None |};
          fielding := None;
          pitching := Some {| battersFaced := Some 0; pitchesThrown := None;
                              inningsPitched := Some "0.0" |} |} |}.

Definition otherPlay : Play :=
  {| result := Some {| description :=
       Some "Defensive Substitution: Joe Smith replaces Bob Jones." |} |}.

(** Three teams that each match the name "desert dogs" by a different
    strategy, the weakest first. *)
Definition dogsBySubstring : Team.t :=
  {| Team.id := 1; Team.name := "Glendale Desert Dogs";
     Team.teamName := Some "Dogs" |}.

Definition dogsByShortName : Team.t :=
  {| Team.id := 2; Team.name := "Glendale";
     Team.teamName := Some "Desert Dogs" |}.

Definition dogsByName : Team.t :=
  {| Team.id := 3; Team.name := "Desert Dogs"; Team.teamName := None |}.

Definition threeDogs : DataClient :=
  {| teamsResponse :=
       Ok (Some [dogsBySubstring; dogsByShortName; dogsByName]);
     scheduleResponse := fun _ _ => Ok None |}.

(** One team, and a schedule given by the days that have a game. *)
Definition desertDogs : Team.t :=
  {| Team.id := 17; Team.name := "Glendale Desert Dogs";
     Team.teamName := Some "Desert Dogs" |}.

Definition gameOn (games : list (Z * Z)) (day : Z) : option Game :=
  (fun kv => {| game_gamePk := snd kv; game_detailedState := Some "Final" |})
    <$> find (fun kv => fst kv =? day) games.

Definition provider (games : list (Z * Z)) : DataClient :=
  {| teamsResponse := Ok (Some [desertDogs]);
     scheduleResponse := fun _ day => Ok (gameOn games day) |}.

(** 2025-10-15 as a day number. *)
Definition oct15 : Z := 20376.

(** A game in progress whose rosters do not carry "Cade Doughty", with a
    play that announces him. *)
Definition roster (names : list string) : Side :=
  {| players := Some (map (fun n =>
       {| person := Some {| fullName := Some n |};
          battingOrder := Some "100";
          position := None;
          stats := None |}) names) |}.

Definition announcedOnly : Feed :=
  {| detailedState := Some "In Progress";
     homeTeamName := Some "Glendale Desert Dogs";
     awayTeamName := Some "Surprise Saguaros";
     boxHome := Some (roster ["Joe Smith"; "Bob Jones"]);
     boxAway := Some (roster ["Al Brown"]);
     allPlays := Some
       [ {| result := Some {| description := Some
              "Offensive Substitution: Pinch-hitter Cade Doughty replaces Joe Smith." |} |} ] |}.

Definition queryFor (team : option string) : StatusQuery :=
  {| q_gamePk := Some "778899";
     q_playerName := Some "Cade Doughty";
     q_team := team;
     q_simulate := None |}.

(** A watcher for "Cade Doughty" with the default cooldown, created in the
    initial world, and polls that see him announced ([announcedOnly]) or
    see nothing yet. *)
Definition watchParams (cooldown : option Z) (stop : option bool)
  : Params.t :=
  {| Params.team := "Glendale Desert Dogs";
     Params.playerName := "Cade Doughty";
     Params.date := Some oct15;
     Params.gamePk := "778899";
     Params.simulate := false;
     Params.emailTo := Some "fan@example.com";
     Params.cooldownSec := cooldown;
     Params.stopAfterAlert := stop |}.

Definition startedWorld (cooldown : option Z) (stop : option bool) : World :=
  fst (fst (startAdaptiveWatcher (watchParams cooldown stop) initialWorld)).

Definition startedClosure (cooldown : option Z) (stop : option bool)
  : Closure :=
  snd (startAdaptiveWatcher (watchParams cooldown stop) initialWorld).

(** The [state] object of that watcher at its creation. *)
Definition freshState (cooldown : option Z) (stop : option bool)
  : Watch.state :=
  {| Watch.id := "1"; Watch.params := watchParams cooldown stop;
     Watch.lastInGame := false; Watch.lastAlertAt := 0;
     Watch.stopped := false; Watch.timer := None |}.

Definition notYet : Feed :=
  {| detailedState := Some "In Progress";
     homeTeamName := Some "Glendale Desert Dogs";
     awayTeamName := Some "Surprise Saguaros";
     boxHome := Some (roster ["Joe Smith"; "Bob Jones"]);
     boxAway := Some (roster ["Al Brown"]);
     allPlays := Some [] |}.

Definition pollAt (t : Z) (feed : res Feed) : Poll :=
  {| fetched := feed; now := t; nowText := "11/1/2025, 5:26:40 AM";
     sendFailure := Some (Error "SendGrid is not configured") |}.

(** 2025-11-01T12:26:40Z in milliseconds. *)
Definition t0 : Z := 1762000000000.

(** A poll whose feed request times out. *)
Definition timedOut : Poll :=
  pollAt t0 (Throw (AxiosError "timeout of 10000ms exceeded" None None)).

(** Three polls in a row that see the entity active, from [t]. *)
Definition threeActive (t : Z) : list Poll :=
  [pollAt t (Ok announcedOnly); pollAt (t + 5000) (Ok announcedOnly);
   pollAt (t + 10000) (Ok announcedOnly)].

(** The watcher after it alerted at [t0] and then, five seconds later,
    saw the entity not active: re-armed, inside its cooldown. *)
Definition rearmedWorld : World :=
  fst (run (startedClosure None (Some false))
           [pollAt t0 (Ok announcedOnly); pollAt (t0 + 5000) (Ok notYet)]
           (startedWorld None (Some false))).

Definition rearmedState : Watch.state :=
  {| Watch.id := "1"; Watch.params := watchParams None (Some false);
     Watch.lastInGame := false; Watch.lastAlertAt := t0;
     Watch.stopped := false; Watch.timer := None |}.

(** A cooldown longer than the time since 1970: two thousand million
    seconds. *)
Definition ages : Z := 2000000000.

(** Two entries called "Cade Doughty" on the home roster, the first in
    the lineup, and one on the away roster. *)
Definition namedEntry (n : string) (bo : option string) (pos : string)
  : Player :=
  {| person := Some {| fullName := Some n |};
     battingOrder := bo;
     position := Some {| abbreviation := Some pos |};
     stats := None |}.

Definition twoSides : Feed :=
  {| detailedState := Some "In Progress";
     homeTeamName := Some "Glendale Desert Dogs";
     awayTeamName := Some "Surprise Saguaros";
     boxHome := Some {| players := Some
       [namedEntry "Joe Smith" None "P";
        namedEntry "CADE DOUGHTY" (Some "501") "2B";
        namedEntry "Cade Doughty" None "SS"] |};
     boxAway := Some {| players := Some
       [namedEntry "cade doughty" None "C"] |};
     allPlays := None |}.

(** The world of [startedWorld] after a second watcher has been started
    in it. *)
Definition twoWatchers : World :=
  fst (fst (startAdaptiveWatcher (watchParams None (Some false))
              (startedWorld None None))).

(** A watcher started in simulation mode by the route, body and all. *)
Definition simulatedBody : StartBody :=
  {| b_team := None; b_playerName := Some "Cade Doughty";
     b_date := None; b_gamePk := None; b_simulate := Some true;
     b_emailTo := Some "fan@example.com"; b_cooldownSec := None;
     b_stopAfterAlert := None |}.

(** A data client whose every request fails. *)
Definition deadClient : DataClient :=
  {| teamsResponse := Throw (AxiosError "connect ECONNREFUSED" None None);
     scheduleResponse := fun _ _ =>
       Throw (AxiosError "connect ECONNREFUSED" None None) |}.


(** * Properties *)

(** ** Entry detector *)

Lemma positive_count_counts c : Js.positive_count c = true <-> counts c.
Proof.
  unfold counts. destruct c as [n|]; simpl.
  - rewrite Z.ltb_lt. split; [intros H; exists n; auto|].
    intros (k & Hk & Hpos). congruence.
  - split; [discriminate|]. intros (k & Hk & _). discriminate.
Qed.

Lemma truthy_nonEmpty v : Js.truthy v = true <-> nonEmpty v.
Proof.
  unfold nonEmpty. destruct v as [s|]; simpl.
  - rewrite negb_true_iff, String.eqb_neq.
    split; [intros H; exists s; auto|]. intros (k & Hk & Hne). congruence.
  - split; [discriminate|]. intros (k & Hk & _). discriminate.
Qed.

Lemma bat_of_counter f m :
  f noBatting = None -> f (bat_of m) = batCounter f m.
Proof.
  intros Hf. unfold bat_of, batCounter.
  destruct (stats m) as [s|]; simpl; [|exact Hf].
  destruct (batting s); simpl; [reflexivity|exact Hf].
Qed.

Lemma fld_of_counter f m :
  f noFielding = None -> f (fld_of m) = fldCounter f m.
Proof.
  intros Hf. unfold fld_of, fldCounter.
  destruct (stats m) as [s|]; simpl; [|exact Hf].
  destruct (fielding s); simpl; [reflexivity|exact Hf].
Qed.

Lemma pit_of_field {A} (f : Pitching -> option A) m :
  f noPitching = None -> f (pit_of m) = (stats m ≫= pitching) ≫= f.
Proof.
  intros Hf. unfold pit_of.
  destruct (stats m) as [s|]; simpl; [|exact Hf].
  destruct (pitching s); simpl; [reflexivity|exact Hf].
Qed.

Lemma battingActivity_counts m :
  battingActivity (bat_of m) = true <->
  counts (batCounter atBats m) \/ counts (batCounter plateAppearances m) \/
  counts (batCounter hits m) \/ counts (batCounter runs m) \/
  counts (batCounter rbi m).
Proof.
  unfold battingActivity.
  rewrite !orb_true_iff, !positive_count_counts.
  rewrite !bat_of_counter by reflexivity. tauto.
Qed.

Lemma fieldingActivity_counts m :
  fieldingActivity (fld_of m) = true <->
  counts (fldCounter putOuts m) \/ counts (fldCounter assists m) \/
  counts (fldCounter chances m).
Proof.
  unfold fieldingActivity.
  rewrite !orb_true_iff, !positive_count_counts.
  rewrite !fld_of_counter by reflexivity. tauto.
Qed.

Lemma innings_active (v : option string) :
  Js.truthy v && negb (Js.strict_eq v "0.0") = true <->
  exists s, v = Some s /\ s <> "" /\ s <> "0.0".
Proof.
  rewrite andb_true_iff, negb_true_iff, truthy_nonEmpty. unfold nonEmpty.
  destruct v as [s|]; simpl.
  - rewrite String.eqb_neq. split.
    + intros [(k & Hk & Hne) Hz]. exists s. inversion Hk; subst. auto.
    + intros (k & Hk & Hne & Hz). inversion Hk; subst.
      split; [exists k|]; auto.
  - split.
    + intros [(k & Hk & _) _]. discriminate.
    + intros (k & Hk & _). discriminate.
Qed.

Lemma pitchingActivity_counts m :
  pitchingActivity (pit_of m) = true <->
  counts (pitCounter battersFaced m) \/ counts (pitCounter pitchesThrown m) \/
  (exists s, inningsPitchedOf m = Some s /\ s <> "" /\ s <> "0.0").
Proof.
  unfold pitchingActivity, pitCounter, inningsPitchedOf.
  rewrite !orb_true_iff, innings_active, !positive_count_counts.
  rewrite !(pit_of_field _ m) by reflexivity. tauto.
Qed.

Lemma counts_fixedCounters m :
  (exists c, In c (fixedCounters m) /\ counts c) <->
  battingActivity (bat_of m) = true \/ fieldingActivity (fld_of m) = true \/
  counts (pitCounter battersFaced m) \/ counts (pitCounter pitchesThrown m).
Proof.
  rewrite battingActivity_counts, fieldingActivity_counts.
  unfold fixedCounters. split.
  - intros (c & Hin & Hc). simpl in Hin.
    repeat (destruct Hin as [<-|Hin]; [tauto|]). contradiction.
  - intros H.
    repeat match goal with
           | H : _ \/ _ |- _ => destruct H as [H|H]
           end;
      (eexists; split; [|exact H]); simpl; tauto.
Qed.

(** The participation heuristic, characterised: a roster entry is active
    exactly when its marker is present and not empty, or one of the ten
    fixed counters is greater than zero, or [inningsPitched] is present,
    not empty and not the literal ['0.0']. *)
Lemma playerAppearedFromBoxscore_iff m :
  playerAppearedFromBoxscore (Some m) = true <->
  nonEmpty (battingOrder m) \/
  (exists c, In c (fixedCounters m) /\ counts c) \/
  (exists s, inningsPitchedOf m = Some s /\ s <> "" /\ s <> "0.0").
Proof.
  unfold playerAppearedFromBoxscore.
  rewrite !orb_true_iff, truthy_nonEmpty, counts_fixedCounters.
  rewrite pitchingActivity_counts. tauto.
Qed.

(** C5, as stated, fails: the marker of [markerOnly ""] is non-null (it is
    the empty string), every counter is absent, and the participation
    heuristic answers not-active, because the code reads the marker for its
    truthiness. *)
Lemma C5_nonnull_marker_not_active :
  battingOrder (markerOnly "") <> None /\
  playerAppearedFromBoxscore (Some (markerOnly "")) = false.
Proof. split; [discriminate|reflexivity]. Qed.

(** C5, amended: for every roster entry whose lineup-position marker is
    present and not the empty string the participation heuristic returns
    active, whatever the counters hold; and the heuristic returns active
    iff the marker is present and not empty, or one of the ten fixed
    counters (atBats, plateAppearances, hits, runs, rbi; putOuts, assists,
    chances; battersFaced, pitchesThrown) is greater than zero, or
    inningsPitched is present, not empty and not the literal ['0.0']. A
    missing roster entry is not active. *)
Theorem C5_participation_heuristic :
  (forall m, nonEmpty (battingOrder m) ->
             playerAppearedFromBoxscore (Some m) = true) /\
  (forall m, playerAppearedFromBoxscore (Some m) = true <->
             nonEmpty (battingOrder m) \/
             (exists c, In c (fixedCounters m) /\ counts c) \/
             (exists s, inningsPitchedOf m = Some s /\ s <> "" /\ s <> "0.0")) /\
  playerAppearedFromBoxscore None = false.
Proof.
  split; [|split].
  - intros m Hbo. apply playerAppearedFromBoxscore_iff. auto.
  - exact playerAppearedFromBoxscore_iff.
  - reflexivity.
Qed.

Lemma C5_participation_heuristic_witness :
  playerAppearedFromBoxscore (Some (markerOnly "100")) = true.
Proof.
  apply (proj1 C5_participation_heuristic (markerOnly "100")).
  exists "100". split; [reflexivity|discriminate].
Defined.

Lemma scanPlays_noMention plays needle :
  (forall p, In p plays -> Js.includes (desc_of p) needle = false) ->
  scanPlays plays needle = false.
Proof.
  induction plays as [|p rest IH]; intros Hno; simpl; [reflexivity|].
  rewrite (Hno p) by (left; reflexivity). simpl.
  apply IH. intros q Hq. apply Hno. right; exact Hq.
Qed.

Lemma playerAppearedFromPlays_noMention plays playerName :
  noMention plays playerName ->
  playerAppearedFromPlays plays playerName = false.
Proof.
  unfold noMention, playerAppearedFromPlays. intros Hno.
  destruct plays as [[|p ps]|]; try reflexivity.
  destruct (String.eqb playerName ""); [reflexivity|].
  apply scanPlays_noMention. exact Hno.
Qed.

Lemma zeroOrAbsent_not_counts c : zeroOrAbsent c -> ~ counts c.
Proof.
  intros [->| ->] (n & Hn & Hpos); [discriminate|].
  inversion Hn; subst. lia.
Qed.

(** C4, as stated, fails: every counter of [markerOnly "100"] is absent
    and there is no play at all, yet the detector answers active, because
    the entry has a lineup marker. *)
Lemma C4_zero_counters_active :
  Forall zeroOrAbsent (fixedCounters (markerOnly "100")) /\
  inningsPitchedOf (markerOnly "100") = None /\
  noMention (Some []) "Cade Doughty" /\
  entered (Some (markerOnly "100")) (Some []) "Cade Doughty" = true.
Proof.
  repeat split.
  - unfold fixedCounters. repeat constructor.
  - intros p [].
Qed.

(** C4, amended: for every snapshot in which the target entity has no
    roster entry, or has one whose lineup-position marker is absent or
    empty, whose ten fixed counters are each zero or absent and whose
    inningsPitched is absent or the literal ['0.0'], and in which no play
    description mentions the entity's name, the entry detector returns
    not-active. *)
Theorem C4_detector_not_active
    (match_ : option Player) (plays : option (list Play))
    (playerName : string)
    (Hmarker : forall m, match_ = Some m -> ~ nonEmpty (battingOrder m))
    (Hcounters : forall m, match_ = Some m ->
                   Forall zeroOrAbsent (fixedCounters m))
    (Hinnings : forall m, match_ = Some m ->
                  inningsPitchedOf m = None \/ inningsPitchedOf m = Some "0.0")
    (Hplays : noMention plays playerName) :
  entered match_ plays playerName = false.
Proof.
  unfold entered.
  rewrite (playerAppearedFromPlays_noMention _ _ Hplays), orb_false_r.
  destruct match_ as [m|]; [|reflexivity].
  apply not_true_is_false. rewrite playerAppearedFromBoxscore_iff.
  intros [Hbo|[(c & Hin & Hc)|(s & Hs & Hne & Hz)]].
  - exact (Hmarker m eq_refl Hbo).
  - specialize (Hcounters m eq_refl).
    rewrite List.Forall_forall in Hcounters.
    apply (zeroOrAbsent_not_counts c); [apply Hcounters|]; assumption.
  - destruct (Hinnings m eq_refl) as [H|H]; congruence.
Qed.

Lemma C4_detector_not_active_witness :
  entered (Some benchPlayer) (Some [otherPlay]) "Cade Doughty" = false.
Proof.
  apply C4_detector_not_active.
  - intros m Hm (s & Hs & _). inversion Hm; subst. discriminate.
  - intros m Hm. inversion Hm; subst.
    unfold fixedCounters. repeat constructor; (left + right); reflexivity.
  - intros m Hm. inversion Hm; subst. right; reflexivity.
  - intros p [<-|[]]. vm_compute. reflexivity.
Defined.

(** ** Identifier resolver: team names *)

Lemma find_firstWith {A} (f : A -> bool) (P : A -> Prop) l t :
  (forall x, f x = true <-> P x) ->
  firstWith P l t -> find f l = Some t.
Proof.
  intros Hf (pre & post & -> & Hpre & Ht).
  induction Hpre as [|x pre Hx _ IH]; simpl.
  - apply Hf in Ht. rewrite Ht. reflexivity.
  - destruct (f x) eqn:E; [|exact IH].
    apply Hf in E. contradiction.
Qed.

Lemma find_nowhere {A} (f : A -> bool) (P : A -> Prop) (l : list A) :
  (forall x, f x = true <-> P x) ->
  Forall (fun x => ~ P x) l -> find f l = None.
Proof.
  intros Hf Hl. induction Hl as [|x l Hx _ IH]; simpl; [reflexivity|].
  destruct (f x) eqn:E; [|exact IH]. apply Hf in E. contradiction.
Qed.

Lemma exactb_spec q t : exactb q t = true <-> exactMatch q t.
Proof. apply String.eqb_eq. Qed.

Lemma shortb_spec q t : shortb q t = true <-> shortMatch q t.
Proof. apply String.eqb_eq. Qed.

Lemma subb_spec q t : subb q t = true <-> substringMatch q t.
Proof. reflexivity. Qed.

(** Rewrite with a fact about one of the three tests. *)
Ltac step E :=
  let H := fresh in
  pose proof E as H; unfold exactb, shortb, subb in H;
  rewrite H; clear H.

Lemma findTeam_exact q teams t :
  firstWith (exactMatch q) teams t -> findTeam teams q = Some t.
Proof.
  intros H. unfold findTeam; cbv zeta.
  step (find_firstWith (exactb q) _ _ _ (exactb_spec q) H). reflexivity.
Qed.

Lemma findTeam_short q teams t :
  Forall (fun x => ~ exactMatch q x) teams ->
  firstWith (shortMatch q) teams t -> findTeam teams q = Some t.
Proof.
  intros Hno H. unfold findTeam; cbv zeta.
  step (find_nowhere (exactb q) _ _ (exactb_spec q) Hno).
  step (find_firstWith (shortb q) _ _ _ (shortb_spec q) H). reflexivity.
Qed.

Lemma findTeam_substring q teams t :
  Forall (fun x => ~ exactMatch q x) teams ->
  Forall (fun x => ~ shortMatch q x) teams ->
  firstWith (substringMatch q) teams t -> findTeam teams q = Some t.
Proof.
  intros Hno1 Hno2 H. unfold findTeam; cbv zeta.
  step (find_nowhere (exactb q) _ _ (exactb_spec q) Hno1).
  step (find_nowhere (shortb q) _ _ (shortb_spec q) Hno2).
  step (find_firstWith (subb q) _ _ _ (subb_spec q) H). reflexivity.
Qed.

Lemma findTeam_none q teams :
  Forall (fun x => ~ exactMatch q x) teams ->
  Forall (fun x => ~ shortMatch q x) teams ->
  Forall (fun x => ~ substringMatch q x) teams ->
  findTeam teams q = None.
Proof.
  intros Hno1 Hno2 Hno3. unfold findTeam; cbv zeta.
  step (find_nowhere (exactb q) _ _ (exactb_spec q) Hno1).
  step (find_nowhere (shortb q) _ _ (shortb_spec q) Hno2).
  step (find_nowhere (subb q) _ _ (subb_spec q) Hno3). reflexivity.
Qed.

(** C7: team-name resolution tries, in this order, a case-insensitive
    exact match on the full name, then a case-insensitive exact match on the
    short name ([teamName]), then a case-insensitive substring match on the
    full name. The first strategy with a match decides, by its first match
    in the list; with no match at all the resolution fails with the
    resolution error. *)
Theorem C7_team_name_priority
    (dc : DataClient) (teams : list Team.t) (q : string)
    (Hteams : teamsResponse dc = Ok (Some teams)) :
  (forall t, firstWith (exactMatch q) teams t ->
     getTeamIdByName dc q = Ok (Team.id t)) /\
  (forall t, Forall (fun x => ~ exactMatch q x) teams ->
     firstWith (shortMatch q) teams t ->
     getTeamIdByName dc q = Ok (Team.id t)) /\
  (forall t, Forall (fun x => ~ exactMatch q x) teams ->
     Forall (fun x => ~ shortMatch q x) teams ->
     firstWith (substringMatch q) teams t ->
     getTeamIdByName dc q = Ok (Team.id t)) /\
  (Forall (fun x => ~ exactMatch q x) teams ->
   Forall (fun x => ~ shortMatch q x) teams ->
   Forall (fun x => ~ substringMatch q x) teams ->
   getTeamIdByName dc q = Throw (ResolutionError q)).
Proof.
  unfold getTeamIdByName, fetchTeamsAFL. rewrite Hteams. simpl.
  repeat split.
  - intros t H. rewrite (findTeam_exact q teams t H). reflexivity.
  - intros t H1 H. rewrite (findTeam_short q teams t H1 H). reflexivity.
  - intros t H1 H2 H. rewrite (findTeam_substring q teams t H1 H2 H).
    reflexivity.
  - intros H1 H2 H3. rewrite (findTeam_none q teams H1 H2 H3). reflexivity.
Qed.

Lemma C7_team_name_priority_witness :
  getTeamIdByName threeDogs "desert dogs" = Ok 3.
Proof.
  apply (proj1 (C7_team_name_priority threeDogs
                  [dogsBySubstring; dogsByShortName; dogsByName]
                  "desert dogs" eq_refl) dogsByName).
  exists [dogsBySubstring; dogsByShortName], [].
  split; [reflexivity|]. split; [|reflexivity].
  repeat constructor; unfold exactMatch; vm_compute; discriminate.
Defined.

(** ** Identifier resolver: the date window *)

Lemma ymd_east tz day i :
  -1440 < tz <= 0 -> ymd tz (setDate (newDate day) i) = day + i.
Proof.
  intros Htz. unfold ymd, setDate, newDate, msPerDay.
  symmetry. apply (Z.div_unique_pos _ _ _ (- tz * 60000)); lia.
Qed.


Lemma queriedDays_east tz day :
  -1440 < tz <= 0 -> queriedDays tz day = specOrder day.
Proof.
  intros Htz. unfold queriedDays, specOrder. simpl.
  rewrite !ymd_east by exact Htz.
  repeat (apply (f_equal2 cons); [lia|]). reflexivity.
Qed.


Section Window.

Variables (tz : Z) (dc : DataClient) (teamId : Z).
Variable sched : Z -> option Game.
Hypothesis Hsched : forall d, scheduleResponse dc teamId d = Ok (sched d).

Lemma getScheduleForDate_firstScheduled d rest :
  exists h, getScheduleForDate dc teamId d = Ok h /\
    firstScheduled sched (d :: rest) =
    match hasGamePk h with
    | Some x => Some (gamePk x)
    | None => firstScheduled sched rest
    end.
Proof.
  unfold getScheduleForDate. rewrite Hsched. simpl.
  eexists; split; [reflexivity|].
  destruct (sched d) as [g|]; simpl; [|reflexivity].
  destruct (game_gamePk g =? 0); reflexivity.
Qed.

Lemma searchDays_firstScheduled day sign steps :
  exists h, searchDays tz dc hasGamePk teamId day sign steps = Ok h /\
    gamePk <$> h =
    firstScheduled sched
      (map (fun i => ymd tz (setDate (newDate day) (sign * i))) steps).
Proof.
  induction steps as [|i rest IH]; simpl map.
  - exists None. split; reflexivity.
  - cbn [searchDays].
    destruct (getScheduleForDate_firstScheduled
                (ymd tz (setDate (newDate day) (sign * i)))
                (map (fun i => ymd tz (setDate (newDate day) (sign * i)))
                     rest)) as (h & Hh & Hfirst).
    rewrite Hh, Hfirst. simpl.
    destruct (hasGamePk h) as [x|]; [|exact IH].
    exists (Some x). split; reflexivity.
Qed.

Lemma firstScheduled_app l1 l2 :
  firstScheduled sched (l1 ++ l2)%list =
  match firstScheduled sched l1 with
  | Some k => Some k
  | None => firstScheduled sched l2
  end.
Proof.
  induction l1 as [|d l1 IH]; simpl; [reflexivity|].
  destruct (sched d) as [g|]; [|exact IH].
  destruct (game_gamePk g =? 0); [exact IH|reflexivity].
Qed.

(** Whatever the host's time zone, [resolveGamePkIfNeeded] answers with
    the first day of [queriedDays] that has a game, and fails when none
    has. *)
Lemma resolve_scans_queriedDays today team day :
  getTeamIdByName dc team = Ok teamId ->
  resolveGamePkIfNeeded tz dc today team (Some day) None false =
  match firstScheduled sched (queriedDays tz day) with
  | Some k => Ok (pretty k)
  | None => Throw NoEventFoundError
  end.
Proof.
  intros Hteam. unfold resolveGamePkIfNeeded. simpl Js.truthy. cbv iota.
  rewrite Hteam. cbn [res_bind default from_option id].
  unfold queriedDays.
  destruct (getScheduleForDate_firstScheduled day
    (map (fun i => ymd tz (setDate (newDate day) (-1 * i))) [1; 2; 3]
     ++ map (fun i => ymd tz (setDate (newDate day) (1 * i))) [1; 2; 3])%list)
    as (h & Hh & Hfirst).
  rewrite Hh, Hfirst. cbn [res_bind].
  destruct (hasGamePk h) as [x|]; [reflexivity|].
  rewrite firstScheduled_app.
  destruct (searchDays_firstScheduled day (-1) [1; 2; 3])
    as (b & Hb & Hbfirst).
  rewrite Hb, <- Hbfirst. cbn [res_bind].
  destruct b as [x|]; [reflexivity|]. cbn [fmap option_fmap option_map].
  destruct (searchDays_firstScheduled day 1 [1; 2; 3])
    as (f & Hf & Hffirst).
  rewrite Hf, <- Hffirst. cbn [res_bind].
  destruct f as [x|]; reflexivity.
Qed.

End Window.

(** On a host at or east of UTC the resolver follows the order of the
    specification: the day itself, the three days before it (most recent
    first), the three days after it (soonest first); the first of them
    with a game decides, and with none the resolution fails. *)
Theorem resolve_order_at_or_east_of_utc
    (tz : Z) (dc : DataClient) (teamId : Z) (sched : Z -> option Game)
    (today : Z) (team : string) (day : Z)
    (Htz : -1440 < tz <= 0)
    (Hteam : getTeamIdByName dc team = Ok teamId)
    (Hsched : forall d, scheduleResponse dc teamId d = Ok (sched d)) :
  resolveGamePkIfNeeded tz dc today team (Some day) None false =
  match firstScheduled sched (specOrder day) with
  | Some k => Ok (pretty k)
  | None => Throw NoEventFoundError
  end.
Proof.
  rewrite (resolve_scans_queriedDays tz dc teamId sched Hsched today team day
             Hteam).
  rewrite (queriedDays_east tz day Htz). reflexivity.
Qed.

Lemma resolve_order_at_or_east_of_utc_witness :
  resolveGamePkIfNeeded 0 (provider [(oct15 + 1, 801); (oct15 - 2, 802)])
    oct15 "desert dogs" (Some oct15) None false = Ok "802".
Proof.
  rewrite (resolve_order_at_or_east_of_utc 0
             (provider [(oct15 + 1, 801); (oct15 - 2, 802)]) 17
             (gameOn [(oct15 + 1, 801); (oct15 - 2, 802)])
             oct15 "desert dogs" oct15).
  - reflexivity.
  - lia.
  - reflexivity.
  - intros d. reflexivity.
Defined.

(** C6 on a host west of UTC (offset 420 minutes, America/Phoenix), for
    the date 2025-10-15: the days asked for are the 15th, 13th, 12th, 11th,
    15th, 16th and 17th, so the day before the target date is never asked
    for. With a game on the 14th only, the resolution fails although the
    window holds a game; with games on the 14th and the 13th, the game of
    the 13th is returned; and the route [GET /api/afl/gamePk] answers that
    there is no game. *)
Theorem C6_west_of_utc_skips_the_day_before :
  queriedDays 420 oct15 =
    [oct15; oct15 - 2; oct15 - 3; oct15 - 4; oct15; oct15 + 1; oct15 + 2] /\
  firstScheduled (gameOn [(oct15 - 1, 801)]) (specOrder oct15) = Some 801 /\
  resolveGamePkIfNeeded 420 (provider [(oct15 - 1, 801)])
    oct15 "Glendale Desert Dogs" (Some oct15) None false
  = Throw NoEventFoundError /\
  resolveGamePkIfNeeded 420 (provider [(oct15 - 1, 801); (oct15 - 2, 802)])
    oct15 "Glendale Desert Dogs" (Some oct15) None false
  = Ok "802" /\
  aflGamePk 420 (provider [(oct15 - 1, 801)]) "Glendale Desert Dogs" oct15
  = ReplyNoGame "No game found in +/-3 days" oct15.
Proof. repeat split; vm_compute; reflexivity. Qed.

(** ** Status: the one-shot query and the watcher's status function *)

Lemma strict_eq_true a b : Js.strict_eq a b = true <-> a = Some b.
Proof.
  destruct a as [s|]; simpl.
  - rewrite String.eqb_eq. split; congruence.
  - split; discriminate.
Qed.

Lemma findByName_none playerName side :
  noRosterEntry playerName side -> findByName playerName side = None.
Proof.
  unfold noRosterEntry, findByName.
  generalize (default [] (players side)). intros l Hno.
  induction l as [|p l IH]; simpl; [reflexivity|].
  destruct (Js.strict_eq _ _) eqn:E.
  - apply strict_eq_true in E. exfalso. apply (Hno p); [left; reflexivity|].
    exact E.
  - apply IH. intros x Hx. apply Hno. right; exact Hx.
Qed.

Lemma truthy_some s : s <> "" -> Js.truthy (Some s) = true.
Proof. intros H. apply truthy_nonEmpty. exists s. auto. Qed.

Lemma announcedOnly_neither : onNeitherRoster "Cade Doughty" announcedOnly.
Proof.
  right; right. exists (roster ["Joe Smith"; "Bob Jones"]), (roster ["Al Brown"]).
  repeat split; intros p Hp; simpl in Hp;
    repeat (destruct Hp as [<-|Hp]; [vm_compute; discriminate|]);
    contradiction.
Qed.

(** C9, as stated, fails: the query is not simulated, the boxscore is
    populated, the name is on neither roster, and the answer is 409
    (team mismatch), not 404, because the team filter of the query is
    checked before the rosters are searched. *)
Lemma C9_team_mismatch_comes_first :
  q_simulate (queryFor (Some "Mesa")) <> Some "1" /\
  onNeitherRoster "Cade Doughty" announcedOnly /\
  is_Some (boxHome announcedOnly) /\ is_Some (boxAway announcedOnly) /\
  httpStatus (playerStatus (queryFor (Some "Mesa")) (Ok announcedOnly)) = 409.
Proof.
  split; [discriminate|]. split; [exact announcedOnly_neither|].
  split; [eexists; reflexivity|]. split; [eexists; reflexivity|].
  vm_compute. reflexivity.
Qed.

(** C9, amended: for every one-shot status query that is not simulated,
    names a game and an entity, gets a feed whose boxscore has both sides,
    and whose team filter, if it has one, is contained in the name of the
    home or of the away team, if the entity's name matches no roster entry
    on either side then the answer is the not-found condition: HTTP 404
    with the code PLAYER_NOT_IN_GAME, and not a normal answer saying
    the entity is not active. *)
Theorem C9_player_not_found
    (q : StatusQuery) (data : Feed) (home away : Side)
    (gamePk_ playerName : string)
    (Hsim : q_simulate q <> Some "1")
    (Hpk : q_gamePk q = Some gamePk_) (Hpk' : gamePk_ <> "")
    (Hname : q_playerName q = Some playerName) (Hname' : playerName <> "")
    (Hteam : teamFilterPasses q data)
    (Hhome : boxHome data = Some home) (Haway : boxAway data = Some away)
    (Hnh : noRosterEntry playerName home)
    (Hna : noRosterEntry playerName away) :
  exists msg,
    playerStatus q (Ok data) =
    {| httpStatus := 404;
       body := PlayerNotInGameBody msg "PLAYER_NOT_IN_GAME"
                 (Js.or_else (detailedState data) "Unknown")
                 (Js.or_else (homeTeamName data) "")
                 (Js.or_else (awayTeamName data) "") |}.
Proof.
  unfold playerStatus.
  destruct (Js.strict_eq (q_simulate q) "1") eqn:Es.
  { apply strict_eq_true in Es. contradiction. }
  rewrite Hpk, Hname, !truthy_some by assumption. cbn [negb orb default from_option id].
  assert (Hm :
    match q_team q with
    | Some team =>
        if Js.truthy (Some team)
        then Js.includes (Js.toLowerCase (Js.or_else (homeTeamName data) ""))
               (Js.toLowerCase team)
             || Js.includes (Js.toLowerCase (Js.or_else (awayTeamName data) ""))
                  (Js.toLowerCase team)
        else true
    | None => true
    end = true).
  { destruct (q_team q) as [t|] eqn:Et; [|reflexivity].
    destruct (Js.truthy (Some t)) eqn:Etr; [|reflexivity].
    apply truthy_nonEmpty in Etr. destruct Etr as (s & Hs & Hne).
    inversion Hs; subst s.
    apply orb_true_iff. apply (Hteam t); auto. }
  rewrite Hm. cbn [negb]. rewrite Hhome, Haway.
  rewrite (findByName_none _ _ Hnh), (findByName_none _ _ Hna).
  cbn [or_find]. eexists. reflexivity.
Qed.

Lemma C9_player_not_found_witness :
  httpStatus (playerStatus (queryFor (Some "desert")) (Ok announcedOnly)) = 404.
Proof.
  destruct (C9_player_not_found (queryFor (Some "desert")) announcedOnly
              (roster ["Joe Smith"; "Bob Jones"]) (roster ["Al Brown"])
              "778899" "Cade Doughty") as (msg & Hmsg).
  - discriminate.
  - reflexivity.
  - discriminate.
  - reflexivity.
  - discriminate.
  - intros t Ht _. inversion Ht; subst. left. vm_compute. reflexivity.
  - reflexivity.
  - reflexivity.
  - intros p Hp; simpl in Hp;
      repeat (destruct Hp as [<-|Hp]; [vm_compute; discriminate|]);
      contradiction.
  - intros p Hp; simpl in Hp;
      repeat (destruct Hp as [<-|Hp]; [vm_compute; discriminate|]);
      contradiction.
  - rewrite Hmsg. reflexivity.
Defined.

(** C10: the watcher's status function never reports a not-found
    condition. Given a feed it always returns a status; when the entity is
    on neither roster, or a side of the boxscore is missing, the
    participation heuristic runs on a missing entry (where it is total and
    answers not-active), so the answer is the narrative heuristic's alone,
    with side, batting order and position all null; that answer can be
    active; and the one-shot route answers the same feed with 404. *)
Theorem C10_watcher_status_never_not_found :
  (forall data playerName simulate,
     exists s, getStatusOnce (Ok data) playerName simulate = Ok s) /\
  (forall data playerName,
     onNeitherRoster playerName data ->
     getStatusOnce (Ok data) playerName false =
     Ok {| Status.inGame := playerAppearedFromPlays (allPlays data) playerName;
           Status.side := None;
           Status.battingOrder := None;
           Status.position := None;
           Status.rawGameState := Js.or_else (detailedState data) "Unknown" |}) /\
  playerAppearedFromBoxscore None = false /\
  (onNeitherRoster "Cade Doughty" announcedOnly /\
   getStatusOnce (Ok announcedOnly) "Cade Doughty" false =
     Ok {| Status.inGame := true;
           Status.side := None;
           Status.battingOrder := None;
           Status.position := None;
           Status.rawGameState := "In Progress" |} /\
   httpStatus (playerStatus (queryFor None) (Ok announcedOnly)) = 404).
Proof.
  split; [|split; [|split; [reflexivity|]]].
  - intros data playerName simulate. unfold getStatusOnce.
    destruct simulate; eexists; reflexivity.
  - intros data playerName Hno. unfold getStatusOnce. cbn [res_bind].
    destruct Hno as [H|[H|(home & away & Hh & Ha & Hnh & Hna)]].
    + rewrite H. reflexivity.
    + rewrite H. destruct (boxHome data); reflexivity.
    + rewrite Hh, Ha.
      rewrite (findByName_none _ _ Hnh), (findByName_none _ _ Hna).
      reflexivity.
  - split; [exact announcedOnly_neither|].
    split; vm_compute; reflexivity.
Qed.

(** ** Watcher *)

Lemma stateOf_modify c f w :
  stateOf c (modify (c_state c) f w) = f <$> stateOf c w.
Proof. unfold stateOf, modify. simpl. apply lookup_alter_eq. Qed.

Lemma watchers_modify l f w : watchers (modify l f w) = watchers w.
Proof. reflexivity. Qed.

Lemma stateOf_scheduleNext c ms w st :
  stateOf c w = Some st ->
  stateOf c (scheduleNext c ms w) =
  Some (if Watch.stopped st then st else Watch.set_timer (Some ms) st).
Proof.
  intros Hst. unfold scheduleNext. unfold stateOf in Hst. rewrite Hst.
  destruct (Watch.stopped st); [exact Hst|].
  rewrite stateOf_modify. unfold stateOf. rewrite Hst. reflexivity.
Qed.

Lemma watchers_scheduleNext c ms w :
  watchers (scheduleNext c ms w) = watchers w.
Proof.
  unfold scheduleNext. destruct (store w !! c_state c) as [st|]; [|reflexivity].
  destruct (Watch.stopped st); reflexivity.
Qed.

Lemma stopWatcher_registered c w st :
  registered c w -> stateOf c w = Some st ->
  let w' := fst (stopWatcher (c_id c) w) in
  stateOf c w' = Some (Watch.set_timer None (Watch.set_stopped true st)) /\
  watchers w' = delete (c_id c) (watchers w).
Proof.
  intros Hreg Hst. unfold stopWatcher. rewrite Hreg.
  cbn [fst]. split; [|reflexivity].
  unfold stateOf in *. unfold modify. cbn [store].
  rewrite !lookup_alter_eq, Hst. reflexivity.
Qed.

(** *** The three ways through [loop] *)

Lemma loop_failed c p w e :
  statusOf c p = Throw e ->
  loop c p w = (scheduleNext c POLL_SLOW w,
                [ConsoleError ("Watcher error: " ++ message_of e)]).
Proof. unfold statusOf, loop. intros ->. reflexivity. Qed.

Lemma loop_quiet c p w s st :
  statusOf c p = Ok s -> stateOf c w = Some st ->
  Watch.lastInGame st = true \/ Status.inGame s = false \/
    now p - Watch.lastAlertAt st < c_cooldownSec c * 1000 ->
  loop c p w =
  (scheduleNext c (intervalFor (Status.rawGameState s))
     (modify (c_state c) (Watch.set_lastInGame (Status.inGame s)) w), []).
Proof.
  unfold statusOf, stateOf, loop. intros -> -> H.
  destruct (negb (Watch.lastInGame st) && Status.inGame s) eqn:E;
    [|reflexivity].
  apply andb_true_iff in E. destruct E as [E1 E2].
  apply negb_true_iff in E1.
  destruct H as [H|[H|H]]; [congruence|congruence|].
  apply Z.leb_gt in H. rewrite H. reflexivity.
Qed.

Lemma loop_alert c p w s st :
  statusOf c p = Ok s -> stateOf c w = Some st ->
  Watch.lastInGame st = false -> Status.inGame s = true ->
  c_cooldownSec c * 1000 <= now p - Watch.lastAlertAt st ->
  let w1 := modify (c_state c) (Watch.set_lastAlertAt (now p)) w in
  loop c p w =
  (if c_stopAfterAlert c then fst (stopWatcher (c_id c) w1)
   else scheduleNext c (intervalFor (Status.rawGameState s))
          (modify (c_state c) (Watch.set_lastInGame (Status.inGame s)) w1),
   Alert (now p) (fst (alertText c p s)) (snd (alertText c p s))
   :: mailEvents c p (fst (alertText c p s)) (snd (alertText c p s))).
Proof.
  unfold statusOf, stateOf, loop, alertText. intros -> -> H1 H2 H3.
  rewrite H1, H2. simpl negb. cbn [andb].
  apply Z.leb_le in H3. rewrite H3.
  destruct (formatAlertText _ _ _ _ _) as [subject html]. simpl fst; simpl snd.
  destruct (c_stopAfterAlert c); reflexivity.
Qed.

Lemma alerts_mailEvents c p subject html :
  alerts (mailEvents c p subject html) = 0%nat /\
  alertTimes (mailEvents c p subject html) = [].
Proof.
  unfold alerts, mailEvents.
  destruct (c_emailTo c) as [to|]; [|split; reflexivity].
  destruct (Js.truthy (Some to)); [|split; reflexivity].
  destruct (sendFailure p); split; reflexivity.
Qed.

(** C8: when the status fetch of a poll fails, no alert is decided, the
    failure is written to the error log, the rising-edge state
    ([lastInGame]) and [lastAlertAt] stay as they were, the registry is
    untouched, and the next poll of the watcher is set for the medium
    interval of 30 seconds ([POLL_SLOW]): a watcher that was running is
    still running. (Of a watcher that a stop request has ended while the
    fetch was under way no poll is set.) *)
Theorem C8_poll_failure_contained
    (c : Closure) (p : Poll) (w : World) (st : Watch.state) (e : exn)
    (Hstate : stateOf c w = Some st)
    (Hsim : c_simulate c = false)
    (Hfetch : fetched p = Throw e) :
  exists st',
    snd (loop c p w) = [ConsoleError ("Watcher error: " ++ message_of e)] /\
    alerts (snd (loop c p w)) = 0%nat /\
    stateOf c (fst (loop c p w)) = Some st' /\
    Watch.lastInGame st' = Watch.lastInGame st /\
    Watch.lastAlertAt st' = Watch.lastAlertAt st /\
    Watch.stopped st' = Watch.stopped st /\
    (Watch.stopped st = false -> Watch.timer st' = Some 30000) /\
    (Watch.stopped st = true -> Watch.timer st' = Watch.timer st) /\
    watchers (fst (loop c p w)) = watchers w.
Proof.
  assert (Hs : statusOf c p = Throw e).
  { unfold statusOf, getStatusOnce. rewrite Hsim, Hfetch. reflexivity. }
  rewrite (loop_failed c p w e Hs). cbn [fst snd].
  rewrite (stateOf_scheduleNext c POLL_SLOW w st Hstate).
  rewrite watchers_scheduleNext.
  eexists. split; [reflexivity|]. split; [reflexivity|].
  split; [reflexivity|].
  destruct (Watch.stopped st) eqn:Hstopped; cbn;
    repeat split; try assumption; try reflexivity; intros H; discriminate H.
Qed.

Lemma stateOf_fire c w :
  stateOf c (fire c w) = Watch.set_timer None <$> stateOf c w.
Proof. apply stateOf_modify. Qed.

Lemma stateOf_stopWatcher c k w st :
  stateOf c w = Some st ->
  stateOf c (fst (stopWatcher k w)) = Some st \/
  stateOf c (fst (stopWatcher k w)) =
    Some (Watch.set_timer None (Watch.set_stopped true st)).
Proof.
  intros Hst. unfold stopWatcher.
  destruct (watchers w !! k) as [l|]; cbn [fst]; [|left; exact Hst].
  unfold stateOf in *. unfold modify. cbn [store].
  destruct (decide (l = c_state c)) as [->|Hne].
  - right. rewrite !lookup_alter_eq, Hst. reflexivity.
  - left. rewrite !lookup_alter_ne by exact Hne. exact Hst.
Qed.

Lemma run_cons c p rest w :
  snd (run c (p :: rest) w) =
  snd (loop c p w)
  :: (if pending c (fst (loop c p w))
      then snd (run c rest (fire c (fst (loop c p w))))
      else []).
Proof.
  cbn [run]. destruct (loop c p w) as [w1 evs]. cbn [fst snd].
  destruct (pending c w1); [|reflexivity].
  destruct (run c rest (fire c w1)) as [w2 more]. reflexivity.
Qed.

Lemma pending_timer c w st :
  stateOf c w = Some st -> Watch.timer st = None -> pending c w = false.
Proof.
  unfold pending, stateOf. intros -> ->. reflexivity.
Qed.

(** Once the watcher has seen the entity active, polls that keep seeing
    it active decide no alert. *)
Lemma run_active_no_alert c polls :
  forall w st,
    stateOf c w = Some st -> Watch.lastInGame st = true ->
    Forall (active c) polls ->
    Forall (fun evs => alerts evs = 0%nat) (snd (run c polls w)).
Proof.
  induction polls as [|p rest IH]; intros w st Hst Hin Hact.
  - constructor.
  - inversion Hact as [|? ? (s & Hs & Hs') Hrest]; subst.
    rewrite run_cons.
    rewrite (loop_quiet c p w s st Hs Hst (or_introl Hin)). cbn [fst snd].
    constructor; [reflexivity|].
    destruct (pending _ _); [|constructor].
    eapply IH; [| |exact Hrest].
    + rewrite stateOf_fire.
      erewrite stateOf_scheduleNext
        by (rewrite stateOf_modify, Hst; reflexivity).
      reflexivity.
    + rewrite Hs'. destruct (Watch.stopped _); reflexivity.
Qed.

Lemma alerts_alert_mail c p s :
  alerts (Alert (now p) (fst (alertText c p s)) (snd (alertText c p s))
          :: mailEvents c p (fst (alertText c p s)) (snd (alertText c p s)))
  = 1%nat.
Proof.
  unfold alerts. cbn [alertTimes omap list_omap].
  fold (alertTimes
          (mailEvents c p (fst (alertText c p s)) (snd (alertText c p s)))).
  rewrite (proj2 (alerts_mailEvents _ _ _ _)). reflexivity.
Qed.

Lemma loop_alert_rising_edge c p w :
  alerts (snd (loop c p w)) <> 0%nat ->
  exists st s,
    stateOf c w = Some st /\ statusOf c p = Ok s /\
    Watch.lastInGame st = false /\ Status.inGame s = true /\
    c_cooldownSec c * 1000 <= now p - Watch.lastAlertAt st.
Proof.
  intros Hal.
  destruct (statusOf c p) as [s|e] eqn:Hs.
  2:{ rewrite (loop_failed c p w e Hs) in Hal. contradiction. }
  destruct (stateOf c w) as [st|] eqn:Hst.
  2:{ unfold loop in Hal. unfold statusOf in Hs. unfold stateOf in Hst.
      rewrite Hs, Hst in Hal. contradiction. }
  destruct (Watch.lastInGame st) eqn:E1.
  { rewrite (loop_quiet c p w s st Hs Hst (or_introl E1)) in Hal.
    contradiction. }
  destruct (Status.inGame s) eqn:E2.
  2:{ rewrite (loop_quiet c p w s st Hs Hst (or_intror (or_introl E2))) in Hal.
      contradiction. }
  destruct (Z_lt_le_dec (now p - Watch.lastAlertAt st) (c_cooldownSec c * 1000))
    as [Hlt|Hle].
  { rewrite (loop_quiet c p w s st Hs Hst (or_intror (or_intror Hlt))) in Hal.
    contradiction. }
  exists st, s. auto.
Qed.

(** After a successful poll the rising-edge state holds what the poll
    observed, unless the poll alerted a watcher that stops on its alert. *)
Lemma loop_records_observation c p w st s :
  stateOf c w = Some st -> statusOf c p = Ok s ->
  exists st',
    stateOf c (fst (loop c p w)) = Some st' /\
    (Watch.lastInGame st' = Status.inGame s \/
     (c_stopAfterAlert c = true /\ alerts (snd (loop c p w)) = 1%nat)).
Proof.
  intros Hst Hs.
  assert (Hquiet :
    Watch.lastInGame st = true \/ Status.inGame s = false \/
      now p - Watch.lastAlertAt st < c_cooldownSec c * 1000 ->
    exists st',
      stateOf c (fst (loop c p w)) = Some st' /\
      (Watch.lastInGame st' = Status.inGame s \/
       (c_stopAfterAlert c = true /\ alerts (snd (loop c p w)) = 1%nat))).
  { intros H. rewrite (loop_quiet c p w s st Hs Hst H). cbn [fst snd].
    erewrite stateOf_scheduleNext
      by (rewrite stateOf_modify, Hst; reflexivity).
    eexists; split; [reflexivity|]. left.
    destruct (Watch.stopped _); reflexivity. }
  destruct (Watch.lastInGame st) eqn:E1; [apply Hquiet; auto|].
  destruct (Status.inGame s) eqn:E2; [|apply Hquiet; auto].
  destruct (Z_lt_le_dec (now p - Watch.lastAlertAt st) (c_cooldownSec c * 1000))
    as [Hlt|Hle]; [apply Hquiet; auto|].
  rewrite (loop_alert c p w s st Hs Hst E1 E2 Hle). cbn [fst snd].
  rewrite alerts_alert_mail.
  destruct (c_stopAfterAlert c).
  - destruct (stateOf_stopWatcher c (c_id c)
                (modify (c_state c) (Watch.set_lastAlertAt (now p)) w)
                (Watch.set_lastAlertAt (now p) st)) as [H|H];
      [rewrite stateOf_modify, Hst; reflexivity| |];
      rewrite H; eexists; split; try reflexivity; right; auto.
  - erewrite stateOf_scheduleNext
      by (rewrite !stateOf_modify, Hst; reflexivity).
    eexists; split; [reflexivity|]. left.
    rewrite E2. destruct (Watch.stopped _); reflexivity.
Qed.

(** C1, amended: an alert is decided on a poll only if the poll succeeds,
    the rising-edge state left by the poll before it is not-active and the
    poll observes the entity active (first part; the second part says
    that the rising-edge state is what the previous successful poll
    observed). In particular (third part), when three polls in a row
    observe the entity active, starting from a not-active rising-edge
    state with the cooldown elapsed since the last alert at the first
    poll (and, as for every poll under way, no timeout pending), exactly
    one alert is decided, on the first poll, and none on a second or
    third. *)
Theorem C1_rising_edge :
  (forall c p w,
     alerts (snd (loop c p w)) <> 0%nat ->
     exists st s,
       stateOf c w = Some st /\ statusOf c p = Ok s /\
       Watch.lastInGame st = false /\ Status.inGame s = true) /\
  (forall c p w st s,
     stateOf c w = Some st -> statusOf c p = Ok s ->
     exists st',
       stateOf c (fst (loop c p w)) = Some st' /\
       (Watch.lastInGame st' = Status.inGame s \/
        (c_stopAfterAlert c = true /\ alerts (snd (loop c p w)) = 1%nat))) /\
  (forall c w st p1 p2 p3,
     stateOf c w = Some st ->
     Watch.lastInGame st = false ->
     Watch.timer st = None ->
     c_cooldownSec c * 1000 <= now p1 - Watch.lastAlertAt st ->
     active c p1 -> active c p2 -> active c p3 ->
     exists first later,
       snd (run c [p1; p2; p3] w) = first :: later /\
       alerts first = 1%nat /\
       Forall (fun evs => alerts evs = 0%nat) later).
Proof.
  split; [|split].
  - intros c p w Hal.
    destruct (loop_alert_rising_edge c p w Hal) as (st & s & H1 & H2 & H3 & H4 & _).
    exists st, s. auto.
  - exact loop_records_observation.
  - intros c w st p1 p2 p3 Hst Hin Htimer Hcool (s & Hs & Hs') Hp2 Hp3.
    rewrite run_cons.
    rewrite (loop_alert c p1 w s st Hs Hst Hin Hs' Hcool). cbn [fst snd].
    eexists _, _. split; [reflexivity|].
    split; [apply alerts_alert_mail|].
    destruct (c_stopAfterAlert c).
    + destruct (stateOf_stopWatcher c (c_id c)
                  (modify (c_state c) (Watch.set_lastAlertAt (now p1)) w)
                  (Watch.set_lastAlertAt (now p1) st)) as [H|H];
        [rewrite stateOf_modify, Hst; reflexivity| |];
        rewrite (pending_timer _ _ _ H) by (simpl; auto); constructor.
    + destruct (pending _ _); [|constructor].
      eapply run_active_no_alert.
      * rewrite stateOf_fire.
        erewrite stateOf_scheduleNext
          by (rewrite !stateOf_modify, Hst; reflexivity).
        reflexivity.
      * rewrite Hs'. destruct (Watch.stopped _); reflexivity.
      * repeat constructor; assumption.
Qed.

(** C1, as stated, fails, for the cooldown gates the rising edge. The
    re-armed watcher starts from a not-active rising-edge state, its next
    three polls all observe the entity active, and no alert is decided on
    any of them: the 300 seconds since the alert at [t0] have not elapsed.
    Likewise a new watcher whose cooldown exceeds the time since 1970
    (its [lastAlertAt] is 0) decides no alert on three active polls. *)
Lemma C1_no_alert_inside_cooldown :
  (stateOf (startedClosure None (Some false)) rearmedWorld
     = Some rearmedState /\
   Watch.lastInGame rearmedState = false /\
   Forall (active (startedClosure None (Some false)))
          (threeActive (t0 + 10000)) /\
   map alerts
     (snd (run (startedClosure None (Some false))
               (threeActive (t0 + 10000)) rearmedWorld))
   = [0; 0; 0]%nat) /\
  (stateOf (startedClosure (Some ages) (Some false))
           (startedWorld (Some ages) (Some false))
     = Some (freshState (Some ages) (Some false)) /\
   Watch.lastInGame (freshState (Some ages) (Some false)) = false /\
   Forall (active (startedClosure (Some ages) (Some false)))
          (threeActive t0) /\
   map alerts
     (snd (run (startedClosure (Some ages) (Some false))
               (threeActive t0) (startedWorld (Some ages) (Some false))))
   = [0; 0; 0]%nat).
Proof.
  split.
  - split; [vm_compute; reflexivity|]. split; [reflexivity|]. split.
    + repeat constructor; eexists; split; vm_compute; reflexivity.
    + vm_compute. reflexivity.
  - split; [vm_compute; reflexivity|]. split; [reflexivity|]. split.
    + repeat constructor; eexists; split; vm_compute; reflexivity.
    + vm_compute. reflexivity.
Qed.

Lemma C1_rising_edge_witness :
  exists first later,
    snd (run (startedClosure None None)
             [pollAt t0 (Ok announcedOnly);
              pollAt (t0 + 5000) (Ok announcedOnly);
              pollAt (t0 + 10000) (Ok announcedOnly)]
             (startedWorld None None)) = first :: later /\
    alerts first = 1%nat /\
    Forall (fun evs => alerts evs = 0%nat) later.
Proof.
  eapply (proj2 (proj2 C1_rising_edge)
            (startedClosure None None) (startedWorld None None)
            (freshState None None)).
  - vm_compute. reflexivity.
  - reflexivity.
  - reflexivity.
  - vm_compute. discriminate.
  - eexists; split; vm_compute; reflexivity.
  - eexists; split; vm_compute; reflexivity.
  - eexists; split; vm_compute; reflexivity.
Defined.

(** *** Cooldown *)

(** What one run of [loop] does to the alert clock: nothing, or one alert
    at [now], which then is the new [lastAlertAt] and is a cooldown after
    the old one. *)
Lemma loop_alert_clock c p w st :
  stateOf c w = Some st ->
  exists st',
    stateOf c (fst (loop c p w)) = Some st' /\
    ((alertTimes (snd (loop c p w)) = [] /\
      Watch.lastAlertAt st' = Watch.lastAlertAt st) \/
     (alertTimes (snd (loop c p w)) = [now p] /\
      Watch.lastAlertAt st' = now p /\
      c_cooldownSec c * 1000 <= now p - Watch.lastAlertAt st)).
Proof.
  intros Hst.
  destruct (statusOf c p) as [s|e] eqn:Hs.
  2:{ rewrite (loop_failed c p w e Hs). cbn [fst snd].
      rewrite (stateOf_scheduleNext c _ w st Hst).
      eexists; split; [reflexivity|]. left. split; [reflexivity|].
      destruct (Watch.stopped st); reflexivity. }
  assert (Hquiet :
    Watch.lastInGame st = true \/ Status.inGame s = false \/
      now p - Watch.lastAlertAt st < c_cooldownSec c * 1000 ->
    exists st',
      stateOf c (fst (loop c p w)) = Some st' /\
      ((alertTimes (snd (loop c p w)) = [] /\
        Watch.lastAlertAt st' = Watch.lastAlertAt st) \/
       (alertTimes (snd (loop c p w)) = [now p] /\
        Watch.lastAlertAt st' = now p /\
        c_cooldownSec c * 1000 <= now p - Watch.lastAlertAt st))).
  { intros H. rewrite (loop_quiet c p w s st Hs Hst H). cbn [fst snd].
    erewrite stateOf_scheduleNext
      by (rewrite stateOf_modify, Hst; reflexivity).
    eexists; split; [reflexivity|]. left. split; [reflexivity|].
    destruct (Watch.stopped _); reflexivity. }
  destruct (Watch.lastInGame st) eqn:E1; [apply Hquiet; auto|].
  destruct (Status.inGame s) eqn:E2; [|apply Hquiet; auto].
  destruct (Z_lt_le_dec (now p - Watch.lastAlertAt st) (c_cooldownSec c * 1000))
    as [Hlt|Hle]; [apply Hquiet; auto|].
  rewrite (loop_alert c p w s st Hs Hst E1 E2 Hle). cbn [fst snd].
  assert (Htimes :
    alertTimes
      (Alert (now p) (fst (alertText c p s)) (snd (alertText c p s))
       :: mailEvents c p (fst (alertText c p s)) (snd (alertText c p s)))
    = [now p]).
  { cbn [alertTimes omap list_omap].
    fold (alertTimes
            (mailEvents c p (fst (alertText c p s)) (snd (alertText c p s)))).
    rewrite (proj2 (alerts_mailEvents _ _ _ _)). reflexivity. }
  rewrite Htimes.
  destruct (c_stopAfterAlert c).
  - destruct (stateOf_stopWatcher c (c_id c)
                (modify (c_state c) (Watch.set_lastAlertAt (now p)) w)
                (Watch.set_lastAlertAt (now p) st)) as [H|H];
      [rewrite stateOf_modify, Hst; reflexivity| |];
      rewrite H; eexists; (split; [reflexivity|]); right; auto.
  - erewrite stateOf_scheduleNext
      by (rewrite !stateOf_modify, Hst; reflexivity).
    eexists; split; [reflexivity|]. right. split; [reflexivity|].
    split; [|exact Hle]. destruct (Watch.stopped _); reflexivity.
Qed.

Lemma run_spaced c polls :
  forall w st,
    stateOf c w = Some st ->
    spaced (c_cooldownSec c * 1000) (Watch.lastAlertAt st)
           (allAlertTimes (snd (run c polls w))).
Proof.
  induction polls as [|p rest IH]; intros w st Hst; [exact I|].
  rewrite run_cons. unfold allAlertTimes. cbn [map concat].
  fold (allAlertTimes
          (if pending c (fst (loop c p w))
           then snd (run c rest (fire c (fst (loop c p w))))
           else [])).
  destruct (loop_alert_clock c p w st Hst) as (st' & Hst' & Hclock).
  assert (Hrest :
    spaced (c_cooldownSec c * 1000) (Watch.lastAlertAt st')
      (allAlertTimes
         (if pending c (fst (loop c p w))
          then snd (run c rest (fire c (fst (loop c p w))))
          else []))).
  { destruct (pending _ _); [|exact I].
    apply (IH _ (Watch.set_timer None st')).
    rewrite stateOf_fire, Hst'. reflexivity. }
  destruct Hclock as [[-> Hsame]|(-> & Hnow & Hgap)]; cbn [app].
  - rewrite <- Hsame. exact Hrest.
  - split; [exact Hgap|]. rewrite <- Hnow. exact Hrest.
Qed.

Lemma spaced_after gap last ts :
  0 <= gap -> spaced gap last ts ->
  forall t, In t ts -> gap <= t - last.
Proof.
  intros Hgap. revert last.
  induction ts as [|t0' rest IH]; intros last Hsp t Hin; [destruct Hin|].
  destruct Hsp as [H0 Hrest]. destruct Hin as [<-|Hin]; [exact H0|].
  specialize (IH _ Hrest t Hin). lia.
Qed.

Lemma spaced_pairs gap last ts :
  0 <= gap -> spaced gap last ts ->
  forall (i j : nat) ti tj,
    (i < j)%nat -> ts !! i = Some ti -> ts !! j = Some tj ->
    gap <= tj - ti.
Proof.
  intros Hgap. revert last.
  induction ts as [|t rest IH]; intros last Hsp i j ti tj Hij Hi Hj.
  - discriminate.
  - destruct Hsp as [_ Hrest]. destruct j as [|j]; [lia|].
    cbn in Hj. destruct i as [|i].
    + cbn in Hi. inversion Hi; subst.
      apply (spaced_after gap ti rest Hgap Hrest).
      apply list_elem_of_In. eapply list_elem_of_lookup_2. exact Hj.
    + cbn in Hi. apply (IH _ Hrest i j ti tj); [lia|assumption|assumption].
Qed.

(** C2: the cooldown is 300 seconds when the parameters give none and the
    given one otherwise; a rising edge met before the cooldown has elapsed
    since the last alert decides no alert and leaves the alert clock
    alone; a rising edge met once it has elapsed decides one, at the
    current time; and in every run of a watcher each alert comes at least
    a cooldown after the alert before it, so that (for a cooldown that is
    not negative) no two alerts of the run are less than a cooldown
    apart. This holds whatever [stopAfterAlert] is, false included. *)
Theorem C2_cooldown :
  (forall params w,
     c_cooldownSec (snd (startAdaptiveWatcher params w)) =
     default 300 (Params.cooldownSec params)) /\
  (forall c p w st s,
     stateOf c w = Some st -> statusOf c p = Ok s ->
     Watch.lastInGame st = false -> Status.inGame s = true ->
     now p - Watch.lastAlertAt st < c_cooldownSec c * 1000 ->
     alerts (snd (loop c p w)) = 0%nat /\
     Watch.lastAlertAt <$> stateOf c (fst (loop c p w))
       = Some (Watch.lastAlertAt st)) /\
  (forall c p w st s,
     stateOf c w = Some st -> statusOf c p = Ok s ->
     Watch.lastInGame st = false -> Status.inGame s = true ->
     c_cooldownSec c * 1000 <= now p - Watch.lastAlertAt st ->
     alertTimes (snd (loop c p w)) = [now p]) /\
  (forall c polls w st,
     stateOf c w = Some st ->
     spaced (c_cooldownSec c * 1000) (Watch.lastAlertAt st)
            (allAlertTimes (snd (run c polls w)))) /\
  (forall c polls w st,
     stateOf c w = Some st -> 0 <= c_cooldownSec c ->
     forall (i j : nat) ti tj,
       (i < j)%nat ->
       allAlertTimes (snd (run c polls w)) !! i = Some ti ->
       allAlertTimes (snd (run c polls w)) !! j = Some tj ->
       c_cooldownSec c * 1000 <= tj - ti).
Proof.
  split; [reflexivity|]. split; [|split; [|split]].
  - intros c p w st s Hst Hs Hin Hact Hlt.
    rewrite (loop_quiet c p w s st Hs Hst (or_intror (or_intror Hlt))).
    cbn [fst snd]. split; [reflexivity|].
    erewrite stateOf_scheduleNext
      by (rewrite stateOf_modify, Hst; reflexivity).
    destruct (Watch.stopped _); reflexivity.
  - intros c p w st s Hst Hs Hin Hact Hle.
    rewrite (loop_alert c p w s st Hs Hst Hin Hact Hle). cbn [snd].
    cbn [alertTimes omap list_omap].
    fold (alertTimes
            (mailEvents c p (fst (alertText c p s)) (snd (alertText c p s)))).
    rewrite (proj2 (alerts_mailEvents _ _ _ _)). reflexivity.
  - intros c polls w st Hst. apply run_spaced. exact Hst.
  - intros c polls w st Hst Hgap i j ti tj Hij Hi Hj.
    eapply (spaced_pairs (c_cooldownSec c * 1000) (Watch.lastAlertAt st));
      [lia|apply run_spaced; exact Hst|exact Hij|exact Hi|exact Hj].
Qed.

Lemma C2_cooldown_witness :
  alerts (snd (loop (startedClosure None (Some false))
                    (pollAt (t0 + 10000) (Ok announcedOnly)) rearmedWorld))
    = 0%nat /\
  Watch.lastAlertAt <$>
    stateOf (startedClosure None (Some false))
      (fst (loop (startedClosure None (Some false))
                 (pollAt (t0 + 10000) (Ok announcedOnly)) rearmedWorld))
    = Some t0.
Proof.
  eapply (proj1 (proj2 C2_cooldown) (startedClosure None (Some false))
            (pollAt (t0 + 10000) (Ok announcedOnly)) rearmedWorld
            rearmedState).
  - vm_compute. reflexivity.
  - vm_compute. reflexivity.
  - reflexivity.
  - reflexivity.
  - vm_compute. reflexivity.
Defined.

(** *** The registry *)

Lemma world_ok_initial : world_ok initialWorld.
Proof.
  split.
  - intros k l H. unfold initialWorld in H. cbn [watchers] in H.
    rewrite lookup_empty in H. discriminate.
  - intros l st H. unfold initialWorld in H. cbn [store] in H.
    rewrite lookup_empty in H. discriminate.
Qed.

Lemma benign_set_lastInGame b : benign (Watch.set_lastInGame b).
Proof. intros st. simpl. auto. Qed.
Lemma benign_set_lastAlertAt t : benign (Watch.set_lastAlertAt t).
Proof. intros st. simpl. auto. Qed.
Lemma benign_clear_timer : benign (Watch.set_timer None).
Proof. intros st. simpl. auto. Qed.

Lemma store_modify l f w l' :
  store (modify l f w) !! l' =
  if decide (l = l') then f <$> store w !! l' else store w !! l'.
Proof.
  unfold modify. cbn [store]. destruct (decide (l = l')) as [->|Hne].
  - apply lookup_alter_eq.
  - apply lookup_alter_ne. exact Hne.
Qed.

Lemma world_ok_modify l f w :
  benign f -> world_ok w -> world_ok (modify l f w).
Proof.
  intros Hf [H1 H2]. split.
  - intros k l' Hk. rewrite watchers_modify in Hk.
    destruct (H1 k l' Hk) as (-> & st & Hst & Hlive). split; [reflexivity|].
    rewrite store_modify. destruct (decide (l = l')) as [->|_].
    + rewrite Hst. eexists; split; [reflexivity|].
      rewrite (proj1 (proj2 (Hf st))). exact Hlive.
    + eauto.
  - intros l' st'. rewrite store_modify, watchers_modify.
    destruct (decide (l = l')) as [->|_]; [|apply H2].
    destruct (store w !! l') as [st|] eqn:Hst; [|discriminate].
    intros H. inversion H; subst st'.
    destruct (H2 l' st Hst) as (Hlt & Hid & Hreg).
    destruct (Hf st) as (Hfid & Hfstop & Hftimer).
    split; [exact Hlt|]. split; [congruence|].
    destruct Hreg as [Hreg|[Hstop Htimer]]; [left; exact Hreg|right].
    split; [congruence|]. destruct Hftimer; congruence.
Qed.

Lemma world_ok_scheduleNext c ms w :
  world_ok w -> world_ok (scheduleNext c ms w).
Proof.
  intros Hok. unfold scheduleNext.
  destruct (store w !! c_state c) as [st|] eqn:Hst; [|exact Hok].
  destruct (Watch.stopped st) eqn:Hlive; [exact Hok|].
  destruct Hok as [H1 H2]. split.
  - intros k l Hk. rewrite watchers_modify in Hk.
    destruct (H1 k l Hk) as (-> & st' & Hst' & Hlive'). split; [reflexivity|].
    rewrite store_modify. destruct (decide (c_state c = l)) as [<-|_]; [|eauto].
    rewrite Hst. eexists; split; [reflexivity|exact Hlive].
  - intros l st'. rewrite store_modify, watchers_modify.
    destruct (decide (c_state c = l)) as [<-|_]; [|apply H2].
    rewrite Hst. intros H. inversion H; subst st'.
    destruct (H2 _ st Hst) as (Hlt & Hid & Hreg).
    split; [exact Hlt|]. split; [exact Hid|].
    destruct Hreg as [Hreg|[Hstop _]]; [left; exact Hreg|congruence].
Qed.

Lemma world_ok_stopWatcher k w :
  world_ok w -> world_ok (fst (stopWatcher k w)).
Proof.
  intros [H1 H2]. unfold stopWatcher.
  destruct (watchers w !! k) as [l|] eqn:Hk; cbn [fst]; [|split; assumption].
  destruct (H1 k l Hk) as (-> & st & Hst & Hlive).
  split; cbn [watchers store nextWatchId modify].
  - intros k' l' Hk'.
    destruct (decide (pretty l = k')) as [<-|Hne].
    { rewrite lookup_delete_eq in Hk'. discriminate. }
    rewrite lookup_delete_ne in Hk' by exact Hne.
    destruct (H1 k' l' Hk') as (-> & st' & Hst' & Hlive').
    split; [reflexivity|].
    assert (l <> l') by congruence.
    rewrite !lookup_alter_ne by assumption. eauto.
  - intros l' st'.
    destruct (decide (l = l')) as [<-|Hne].
    + rewrite !lookup_alter_eq, Hst. intros H. inversion H; subst st'.
      destruct (H2 l st Hst) as (Hlt & Hid & _).
      split; [exact Hlt|]. split; [exact Hid|]. right. split; reflexivity.
    + rewrite !lookup_alter_ne by exact Hne. intros Hst'.
      destruct (H2 l' st' Hst') as (Hlt & Hid & Hreg).
      split; [exact Hlt|]. split; [exact Hid|].
      destruct Hreg as [Hreg|Hstop]; [left|right; exact Hstop].
      rewrite lookup_delete_ne; [exact Hreg|].
      intros E. apply (inj pretty) in E. contradiction.
Qed.

Lemma world_ok_start params w :
  world_ok w -> world_ok (fst (fst (startAdaptiveWatcher params w))).
Proof.
  intros [H1 H2]. unfold startAdaptiveWatcher.
  cbn [fst watchers store nextWatchId].
  assert (Hfresh : store w !! nextWatchId w = None).
  { destruct (store w !! nextWatchId w) as [st|] eqn:E; [|reflexivity].
    destruct (H2 _ st E) as (Hlt & _). lia. }
  split; cbn [watchers store nextWatchId].
  - intros k l Hk.
    destruct (decide (pretty (nextWatchId w) = k)) as [<-|Hne].
    + rewrite lookup_insert_eq in Hk. inversion Hk; subst l.
      split; [reflexivity|]. rewrite lookup_insert_eq.
      eexists; split; reflexivity.
    + rewrite lookup_insert_ne in Hk by exact Hne.
      destruct (H1 k l Hk) as (-> & st & Hst & Hlive). split; [reflexivity|].
      rewrite lookup_insert_ne by congruence. eauto.
  - intros l st.
    destruct (decide (nextWatchId w = l)) as [<-|Hne].
    + rewrite lookup_insert_eq. intros H. inversion H; subst st.
      cbn [Watch.id Watch.stopped Watch.timer].
      split; [lia|]. split; [reflexivity|]. left. apply lookup_insert_eq.
    + rewrite lookup_insert_ne by exact Hne. intros Hst.
      destruct (H2 l st Hst) as (Hlt & Hid & Hreg).
      split; [lia|]. split; [exact Hid|].
      destruct Hreg as [Hreg|Hstop]; [left|right; exact Hstop].
      rewrite lookup_insert_ne; [exact Hreg|].
      intros E. apply (inj pretty) in E. contradiction.
Qed.

Lemma world_ok_loop c p w : world_ok w -> world_ok (fst (loop c p w)).
Proof.
  intros Hok. unfold loop.
  destruct (getStatusOnce _ _ _) as [s|e]; cbn [fst];
    [|apply world_ok_scheduleNext; exact Hok].
  destruct (store w !! c_state c) as [st|]; [|exact Hok].
  assert (Hcont : forall w0, world_ok w0 ->
    world_ok (scheduleNext c (intervalFor (Status.rawGameState s))
                (modify (c_state c)
                   (Watch.set_lastInGame (Status.inGame s)) w0))).
  { intros w0 H0. apply world_ok_scheduleNext, world_ok_modify;
      [apply benign_set_lastInGame|exact H0]. }
  destruct (negb (Watch.lastInGame st) && Status.inGame s);
    [|apply Hcont; exact Hok].
  destruct (c_cooldownSec c * 1000 <=? now p - Watch.lastAlertAt st);
    [|apply Hcont; exact Hok].
  destruct (formatAlertText _ _ _ _ _) as [subject html].
  assert (H1 : world_ok
    (modify (c_state c) (Watch.set_lastAlertAt (now p)) w)).
  { apply world_ok_modify; [apply benign_set_lastAlertAt|exact Hok]. }
  destruct (c_stopAfterAlert c); cbn [fst].
  - apply world_ok_stopWatcher. exact H1.
  - apply Hcont. exact H1.
Qed.

Lemma world_ok_fire c w : world_ok w -> world_ok (fire c w).
Proof. apply world_ok_modify, benign_clear_timer. Qed.

(** A summary of [listWatchers] belongs to a registered watcher. *)
Lemma listWatchers_registered w x :
  world_ok w -> x ∈ listWatchers w -> is_Some (watchers w !! s_id x).
Proof.
  intros [H1 H2] Hx. unfold listWatchers in Hx.
  apply list_elem_of_omap in Hx. destruct Hx as ([k l] & Hkl & Hsum).
  apply elem_of_map_to_list in Hkl. cbn [snd] in Hsum.
  destruct (H1 k l Hkl) as (-> & st & Hst & _).
  rewrite Hst in Hsum. inversion Hsum; subst x. cbn [summary s_id].
  destruct (H2 l st Hst) as (_ & -> & _). rewrite Hkl. eexists; reflexivity.
Qed.

(** The outcome of the mail delivery has no part in what [loop] does to
    the world. *)
Lemma loop_world_withSend c p w f :
  fst (loop c (withSend f p) w) = fst (loop c p w).
Proof.
  unfold loop, withSend. cbn [fetched now nowText].
  destruct (getStatusOnce _ _ _) as [s|e]; [|reflexivity].
  destruct (store w !! c_state c) as [st|]; [|reflexivity].
  destruct (negb (Watch.lastInGame st) && Status.inGame s); [|reflexivity].
  destruct (_ <=? _); [|reflexivity].
  destruct (formatAlertText _ _ _ _ _) as [subject html].
  destruct (c_stopAfterAlert c); reflexivity.
Qed.

Lemma loop_alert_times c p w st s :
  stateOf c w = Some st -> statusOf c p = Ok s ->
  Watch.lastInGame st = false -> Status.inGame s = true ->
  c_cooldownSec c * 1000 <= now p - Watch.lastAlertAt st ->
  alertTimes (snd (loop c p w)) = [now p].
Proof.
  intros Hst Hs Hin Hact Hle.
  rewrite (loop_alert c p w s st Hs Hst Hin Hact Hle). cbn [snd].
  cbn [alertTimes omap list_omap].
  fold (alertTimes
          (mailEvents c p (fst (alertText c p s)) (snd (alertText c p s)))).
  rewrite (proj2 (alerts_mailEvents _ _ _ _)). reflexivity.
Qed.

(** A closure and its [state] object carry the same id; the object of a
    running watcher is the one the registry holds under that id. *)
Lemma closure_registered c w st :
  world_ok w -> stateOf c w = Some st -> Watch.id st = c_id c ->
  c_id c = pretty (c_state c) /\
  (watchers w !! c_id c = None \/ registered c w) /\
  (watchers w !! c_id c = None ->
   Watch.stopped st = true /\ Watch.timer st = None) /\
  (Watch.stopped st = false -> registered c w).
Proof.
  intros [H1 H2] Hst Hid. unfold stateOf in Hst. unfold registered.
  destruct (H2 _ st Hst) as (_ & Hpretty & Hreg).
  assert (Hc : c_id c = pretty (c_state c)) by congruence.
  rewrite Hc. split; [reflexivity|]. split; [|split].
  - destruct (watchers w !! pretty (c_state c)) as [l|] eqn:E; [|left; reflexivity].
    right. destruct (H1 _ _ E) as (Hl & _).
    apply (inj pretty) in Hl. congruence.
  - intros Hnone. destruct Hreg as [Hreg|Hstop]; [congruence|exact Hstop].
  - intros Hlive. destruct Hreg as [Hreg|[Hstop _]]; [exact Hreg|congruence].
Qed.

(** C3: when the alert trigger condition holds on a poll, the alert is
    decided and [lastAlertAt] becomes the current time, whatever the mail
    delivery does; a watcher that stops on its alert is then stopped, has
    no timeout pending, is out of the registry and absent from the list
    of watchers; a watcher that does not stop has its rising-edge state
    set and, unless a stop request has ended it meanwhile, remains
    registered with its next poll scheduled (first part). The outcome of
    the mail delivery never changes what a poll does to the world (second
    part), and [lastAlertAt] changes on a poll only when that poll decides
    an alert (third part). *)
Theorem C3_alert_postcondition :
  (forall c p w st s,
     world_ok w -> stateOf c w = Some st -> Watch.id st = c_id c ->
     statusOf c p = Ok s ->
     Watch.lastInGame st = false -> Status.inGame s = true ->
     c_cooldownSec c * 1000 <= now p - Watch.lastAlertAt st ->
     alertTimes (snd (loop c p w)) = [now p] /\
     exists st',
       stateOf c (fst (loop c p w)) = Some st' /\
       Watch.lastAlertAt st' = now p /\
       if c_stopAfterAlert c
       then Watch.stopped st' = true /\ Watch.timer st' = None /\
            watchers (fst (loop c p w)) !! c_id c = None /\
            forall x, x ∈ listWatchers (fst (loop c p w)) -> s_id x <> c_id c
       else Watch.lastInGame st' = true /\
            Watch.stopped st' = Watch.stopped st /\
            (Watch.stopped st = false ->
             Watch.timer st' = Some (intervalFor (Status.rawGameState s)) /\
             registered c (fst (loop c p w)))) /\
  (forall c p w f, fst (loop c (withSend f p) w) = fst (loop c p w)) /\
  (forall c p w st st',
     stateOf c w = Some st -> stateOf c (fst (loop c p w)) = Some st' ->
     Watch.lastAlertAt st' <> Watch.lastAlertAt st ->
     alertTimes (snd (loop c p w)) = [now p] /\
     Watch.lastAlertAt st' = now p).
Proof.
  split; [|split; [exact loop_world_withSend|]].
  - intros c p w st s Hok Hst Hid Hs Hin Hact Hcool.
    split; [exact (loop_alert_times c p w st s Hst Hs Hin Hact Hcool)|].
    pose proof (world_ok_loop c p w Hok) as Hok'.
    rewrite (loop_alert c p w s st Hs Hst Hin Hact Hcool) in *.
    cbn [fst snd] in *.
    set (w1 := modify (c_state c) (Watch.set_lastAlertAt (now p)) w) in *.
    assert (Hst1 : stateOf c w1 = Some (Watch.set_lastAlertAt (now p) st)).
    { unfold w1. rewrite stateOf_modify, Hst. reflexivity. }
    assert (Hok1 : world_ok w1).
    { apply world_ok_modify; [apply benign_set_lastAlertAt|exact Hok]. }
    destruct (closure_registered c w1 _ Hok1 Hst1 Hid)
      as (Hc & Hcases & Hgone & Hlive).
    destruct (c_stopAfterAlert c).
    + assert (Hlist : forall w',
        world_ok w' -> watchers w' !! c_id c = None ->
        forall x, x ∈ listWatchers w' -> s_id x <> c_id c).
      { intros w' Hw' Hnone x Hx Hx'.
        apply (listWatchers_registered _ _ Hw') in Hx.
        rewrite Hx', Hnone in Hx. destruct Hx as [? Hx]. discriminate. }
      destruct Hcases as [Hnone|Hreg].
      * assert (Hnop : fst (stopWatcher (c_id c) w1) = w1).
        { unfold stopWatcher. rewrite Hnone. reflexivity. }
        rewrite Hnop in *. rewrite Hst1.
        destruct (Hgone Hnone) as [Hstop Htimer].
        eexists; split; [reflexivity|]. split; [reflexivity|].
        split; [exact Hstop|]. split; [exact Htimer|].
        split; [exact Hnone|]. apply Hlist; assumption.
      * destruct (stopWatcher_registered c w1 _ Hreg Hst1) as [Hst' Hw'].
        cbv zeta in Hst', Hw'. rewrite Hst'.
        assert (Hnone :
          watchers (fst (stopWatcher (c_id c) w1)) !! c_id c = None).
        { rewrite Hw'. apply lookup_delete_eq. }
        eexists; split; [reflexivity|]. split; [reflexivity|].
        split; [reflexivity|]. split; [reflexivity|].
        split; [exact Hnone|]. apply Hlist; assumption.
    + erewrite stateOf_scheduleNext
        by (rewrite stateOf_modify, Hst1; reflexivity).
      cbn [Watch.stopped Watch.set_lastInGame Watch.set_lastAlertAt].
      eexists; split; [reflexivity|].
      destruct (Watch.stopped st) eqn:Hstopped.
      * cbn. rewrite Hact. repeat split; try assumption; discriminate.
      * cbn. rewrite Hact. repeat split; try assumption.
        unfold registered. rewrite watchers_scheduleNext.
        apply Hlive. exact Hstopped.
  - intros c p w st st' Hst Hst' Hne.
    destruct (loop_alert_clock c p w st Hst) as (st1 & Hst1 & Hclock).
    rewrite Hst' in Hst1. inversion Hst1; subst st1.
    destruct Hclock as [[_ Hsame]|(Htimes & Hnow & _)]; [contradiction|auto].
Qed.

Lemma startedWorld_ok cooldown stop : world_ok (startedWorld cooldown stop).
Proof. apply world_ok_start, world_ok_initial. Qed.

Lemma C3_alert_postcondition_witness :
  alertTimes (snd (loop (startedClosure None None)
                        (pollAt t0 (Ok announcedOnly))
                        (startedWorld None None)))
    = [t0] /\
  exists st',
    stateOf (startedClosure None None)
      (fst (loop (startedClosure None None)
                 (pollAt t0 (Ok announcedOnly)) (startedWorld None None)))
      = Some st' /\
    Watch.lastAlertAt st' = t0 /\
    Watch.stopped st' = true /\ Watch.timer st' = None /\
    watchers (fst (loop (startedClosure None None)
                        (pollAt t0 (Ok announcedOnly))
                        (startedWorld None None)))
      !! "1" = None /\
    forall x,
      x ∈ listWatchers
            (fst (loop (startedClosure None None)
                       (pollAt t0 (Ok announcedOnly))
                       (startedWorld None None))) ->
      s_id x <> "1".
Proof.
  eapply (proj1 C3_alert_postcondition (startedClosure None None)
            (pollAt t0 (Ok announcedOnly)) (startedWorld None None)
            (freshState None None)).
  - apply startedWorld_ok.
  - vm_compute. reflexivity.
  - reflexivity.
  - vm_compute. reflexivity.
  - reflexivity.
  - reflexivity.
  - vm_compute. discriminate.
Defined.

Lemma C8_poll_failure_contained_witness :
  exists st',
    snd (loop (startedClosure None None) timedOut (startedWorld None None))
      = [ConsoleError "Watcher error: timeout of 10000ms exceeded"] /\
    alerts (snd (loop (startedClosure None None) timedOut
                      (startedWorld None None))) = 0%nat /\
    stateOf (startedClosure None None)
      (fst (loop (startedClosure None None) timedOut
                 (startedWorld None None))) = Some st' /\
    Watch.lastInGame st' = false /\
    Watch.lastAlertAt st' = 0 /\
    Watch.stopped st' = false /\
    (false = false -> Watch.timer st' = Some 30000) /\
    (false = true -> Watch.timer st' = None) /\
    watchers (fst (loop (startedClosure None None) timedOut
                        (startedWorld None None)))
      = watchers (startedWorld None None).
Proof.
  apply (C8_poll_failure_contained (startedClosure None None) timedOut
           (startedWorld None None) (freshState None None)
           (AxiosError "timeout of 10000ms exceeded" None None)).
  - vm_compute. reflexivity.
  - reflexivity.
  - reflexivity.
Defined.

(** Every world the service reaches keeps the registry invariant: ids are
    the decimals of the counter values, which only grow, so no id is used
    twice; a registered watcher has not been stopped; and a watcher that
    is not registered any more is stopped and has no timeout pending, so
    no further poll of it is scheduled. *)
Theorem reachable_world_ok (w : World) (Hreach : reachable w) : world_ok w.
Proof.
  induction Hreach as [|w w' _ IH Hstep]; [exact world_ok_initial|].
  destruct Hstep.
  - apply world_ok_start. exact IH.
  - apply world_ok_stopWatcher. exact IH.
  - apply world_ok_loop. exact IH.
  - apply world_ok_fire. exact IH.
Qed.

Lemma reachable_world_ok_witness : world_ok rearmedWorld.
Proof.
  apply reachable_world_ok. unfold rearmedWorld.
  cbn [run]. unfold startedWorld.
  repeat first
    [ match goal with
      | |- context [let '(_, _) := ?x in _] =>
          rewrite (surjective_pairing x); cbn [fst snd]
      | |- context [if ?b then _ else _] => destruct b; cbn [fst snd]
      end ].
  all: repeat (eapply reach_step; [|first [apply step_fire|apply step_loop]]);
    (eapply reach_step; [apply reach_initial|apply step_start]).
Defined.

(** * Further properties of the code *)

(** ** Narrative heuristic *)

Lemma scanPlays_true plays needle :
  scanPlays plays needle = true <->
  exists p, In p plays /\ Js.includes (desc_of p) needle = true /\
            exists k, In k keywords /\ Js.includes (desc_of p) k = true.
Proof.
  induction plays as [|p rest IH]; cbn [scanPlays].
  - split; [discriminate|]. intros (p & [] & _).
  - destruct (Js.includes (desc_of p) needle) eqn:Hn; cbn [negb].
    + destruct (existsb (fun k => Js.includes (desc_of p) k) keywords)
        eqn:Hk.
      * split; [|reflexivity]. intros _. exists p. split; [left; reflexivity|].
        split; [exact Hn|]. apply List.existsb_exists in Hk. exact Hk.
      * rewrite IH. split.
        -- intros (q & Hq & H). exists q. split; [right; exact Hq|exact H].
        -- intros (q & [<-|Hq] & Hqn & Hqk).
           ++ assert (existsb (fun k => Js.includes (desc_of p) k) keywords
                      = true) by (apply List.existsb_exists; exact Hqk).
              congruence.
           ++ exists q. auto.
    + rewrite IH. split.
      * intros (q & Hq & H). exists q. split; [right; exact Hq|exact H].
      * intros (q & [<-|Hq] & Hqn & Hqk); [congruence|].
        exists q. auto.
Qed.

(** The narrative heuristic answers active exactly when the name is not
    empty and some play announces the entity: the lowercased description
    of the play contains the lowercased name and one of the seven
    substitution phrases. A missing or empty list of plays, an empty name,
    and plays without a description never make it active. *)
Theorem playerAppearedFromPlays_iff :
  forall plays playerName,
    playerAppearedFromPlays plays playerName = true <->
    playerName <> "" /\
    exists p, In p (default [] plays) /\ announces playerName p.
Proof.
  intros plays playerName. unfold playerAppearedFromPlays, announces.
  destruct plays as [[|p ps]|]; simpl default.
  - split; [discriminate|]. intros (_ & q & [] & _).
  - destruct (String.eqb playerName "") eqn:E.
    + apply String.eqb_eq in E. split; [discriminate|]. intros [H _].
      contradiction.
    + apply String.eqb_neq in E. rewrite scanPlays_true. tauto.
  - split; [discriminate|]. intros (_ & q & [] & _).
Qed.

(** ** Roster search *)

Lemma namedAs_spec playerName p :
  Js.strict_eq (Js.toLowerCase <$> (person p ≫= fullName))
               (Js.toLowerCase playerName) = true
  <-> namedAs playerName p.
Proof. apply strict_eq_true. Qed.

Lemma findByName_first playerName side m :
  firstWith (namedAs playerName) (default [] (players side)) m ->
  findByName playerName side = Some m.
Proof.
  intros H. unfold findByName.
  exact (find_firstWith _ _ _ _ (namedAs_spec playerName) H).
Qed.

Lemma findByName_onRoster playerName side :
  onRoster playerName side ->
  exists m, findByName playerName side = Some m.
Proof.
  unfold onRoster, findByName.
  generalize (default [] (players side)). intros l (p & Hin & Hp).
  induction l as [|x l IH]; [destruct Hin|]. simpl.
  destruct (Js.strict_eq _ _) eqn:E; [eexists; reflexivity|].
  destruct Hin as [->|Hin]; [|exact (IH Hin)].
  apply namedAs_spec in Hp. congruence.
Qed.

(** When the entity is on a roster, the one-shot route and the watcher's
    status function agree: for a query that is not simulated, names a game
    and an entity and passes the team filter, on a feed whose boxscore has
    both sides, the route answers 200 with exactly the status
    [getStatusOnce] computes from the same feed (same [inGame], side,
    batting order, position and game state). *)
Theorem playerStatus_agrees_with_getStatusOnce
    (q : StatusQuery) (data : Feed) (home away : Side)
    (gamePk_ playerName : string)
    (Hsim : q_simulate q <> Some "1")
    (Hpk : q_gamePk q = Some gamePk_) (Hpk' : gamePk_ <> "")
    (Hname : q_playerName q = Some playerName) (Hname' : playerName <> "")
    (Hteam : teamFilterPasses q data)
    (Hhome : boxHome data = Some home) (Haway : boxAway data = Some away)
    (Hon : onRoster playerName home \/ onRoster playerName away) :
  exists s,
    getStatusOnce (Ok data) playerName false = Ok s /\
    playerStatus q (Ok data) = json (StatusBodyOf playerName s).
Proof.
  unfold playerStatus, getStatusOnce.
  destruct (Js.strict_eq (q_simulate q) "1") eqn:Es.
  { apply strict_eq_true in Es. contradiction. }
  rewrite Hpk, Hname, !truthy_some by assumption.
  cbn [negb orb default from_option id res_bind].
  assert (Hm :
    match q_team q with
    | Some team =>
        if Js.truthy (Some team)
        then Js.includes (Js.toLowerCase (Js.or_else (homeTeamName data) ""))
               (Js.toLowerCase team)
             || Js.includes (Js.toLowerCase (Js.or_else (awayTeamName data) ""))
                  (Js.toLowerCase team)
        else true
    | None => true
    end = true).
  { destruct (q_team q) as [t|] eqn:Et; [|reflexivity].
    destruct (Js.truthy (Some t)) eqn:Etr; [|reflexivity].
    apply truthy_nonEmpty in Etr. destruct Etr as (s & Hs & Hne).
    inversion Hs; subst s.
    apply orb_true_iff. apply (Hteam t); auto. }
  rewrite Hm. cbn [negb]. rewrite Hhome, Haway.
  destruct (findByName playerName home) as [h|] eqn:Eh.
  - eexists. split; reflexivity.
  - destruct (findByName playerName away) as [a|] eqn:Ea.
    + eexists. split; reflexivity.
    + destruct Hon as [Hon|Hon];
        apply findByName_onRoster in Hon; destruct Hon as (m & Hm'); congruence.
Qed.

Lemma playerStatus_agrees_with_getStatusOnce_witness :
  exists s,
    getStatusOnce (Ok twoSides) "Cade Doughty" false = Ok s /\
    playerStatus (queryFor (Some "glendale")) (Ok twoSides)
    = json (StatusBodyOf "Cade Doughty" s).
Proof.
  apply (playerStatus_agrees_with_getStatusOnce
           (queryFor (Some "glendale")) twoSides
           {| players := Some
                [namedEntry "Joe Smith" None "P";
                 namedEntry "CADE DOUGHTY" (Some "501") "2B";
                 namedEntry "Cade Doughty" None "SS"] |}
           {| players := Some [namedEntry "cade doughty" None "C"] |}
           "778899" "Cade Doughty").
  - discriminate.
  - reflexivity.
  - discriminate.
  - reflexivity.
  - discriminate.
  - intros t Ht _. inversion Ht; subst. left. vm_compute. reflexivity.
  - reflexivity.
  - reflexivity.
  - right. exists (namedEntry "cade doughty" None "C").
    split; [left; reflexivity|vm_compute; reflexivity].
Defined.

(** First match wins, home before away: when the boxscore has both
    sides, the watcher's status is that of the first home entry carrying
    the name, whatever the away roster holds; the away roster is searched
    (again for its first such entry) only when no home entry carries the
    name. *)
Theorem getStatusOnce_first_match_home_first
    (data : Feed) (home away : Side) (playerName : string) (m : Player)
    (Hhome : boxHome data = Some home) (Haway : boxAway data = Some away) :
  (firstWith (namedAs playerName) (default [] (players home)) m ->
   getStatusOnce (Ok data) playerName false
   = Ok (statusFor data playerName "home" m)) /\
  (noRosterEntry playerName home ->
   firstWith (namedAs playerName) (default [] (players away)) m ->
   getStatusOnce (Ok data) playerName false
   = Ok (statusFor data playerName "away" m)).
Proof.
  unfold getStatusOnce. cbn [res_bind]. rewrite Hhome, Haway. split.
  - intros Hm. rewrite (findByName_first _ _ _ Hm). reflexivity.
  - intros Hno Hm.
    rewrite (findByName_none _ _ Hno), (findByName_first _ _ _ Hm).
    reflexivity.
Qed.

Lemma getStatusOnce_first_match_home_first_witness :
  getStatusOnce (Ok twoSides) "Cade Doughty" false
  = Ok {| Status.inGame := true;
          Status.side := Some "home";
          Status.battingOrder := Some "501";
          Status.position := Some "2B";
          Status.rawGameState := "In Progress" |}.
Proof.
  apply (proj1 (getStatusOnce_first_match_home_first twoSides
           {| players := Some
                [namedEntry "Joe Smith" None "P";
                 namedEntry "CADE DOUGHTY" (Some "501") "2B";
                 namedEntry "Cade Doughty" None "SS"] |}
           {| players := Some [namedEntry "cade doughty" None "C"] |}
           "Cade Doughty" (namedEntry "CADE DOUGHTY" (Some "501") "2B")
           eq_refl eq_refl)).
  exists [namedEntry "Joe Smith" None "P"],
         [namedEntry "Cade Doughty" None "SS"].
  split; [reflexivity|]. split; [|vm_compute; reflexivity].
  repeat constructor. vm_compute. discriminate.
Defined.

(** ** Letter case *)

Lemma toLowerCase_empty s : Js.toLowerCase s = "" <-> s = "".
Proof. destruct s; simpl; split; congruence. Qed.

Lemma eqb_empty_case a b :
  Js.toLowerCase a = Js.toLowerCase b ->
  String.eqb a "" = String.eqb b "".
Proof.
  intros H. destruct (String.eqb a "") eqn:Ea, (String.eqb b "") eqn:Eb;
    try reflexivity.
  - apply String.eqb_eq in Ea. apply String.eqb_neq in Eb. subst a.
    simpl in H. symmetry in H.
    apply (proj1 (toLowerCase_empty _)) in H. contradiction.
  - apply String.eqb_eq in Eb. apply String.eqb_neq in Ea. subst b.
    simpl in H. apply (proj1 (toLowerCase_empty _)) in H. contradiction.
Qed.

(** Names that differ only in the case of their letters are treated
    alike: the watcher's status function gives the same answer for both
    (roster search and narrative heuristic), and so does the search of a
    team by name. *)
Theorem lookups_ignore_letter_case
    (a b : string) (Hab : Js.toLowerCase a = Js.toLowerCase b) :
  (forall fetched_ simulate,
     getStatusOnce fetched_ a simulate = getStatusOnce fetched_ b simulate) /\
  (forall teams, findTeam teams a = findTeam teams b).
Proof.
  split.
  - intros fetched_ simulate.
    unfold getStatusOnce, findByName, entered, playerAppearedFromPlays.
    rewrite Hab, (eqb_empty_case a b Hab). reflexivity.
  - intros teams. unfold findTeam. rewrite Hab. reflexivity.
Qed.

Lemma lookups_ignore_letter_case_witness :
  getStatusOnce (Ok twoSides) "cAdE dOuGhTy" false
  = getStatusOnce (Ok twoSides) "Cade Doughty" false.
Proof.
  apply (proj1 (lookups_ignore_letter_case "cAdE dOuGhTy" "Cade Doughty"
                  eq_refl)).
Defined.

(** ** Team names: what is found, and when nothing is *)

Lemma prefix_refl s : String.prefix s s = true.
Proof.
  induction s as [|a s IH]; simpl; [reflexivity|].
  destruct (ascii_dec a a); [exact IH|contradiction].
Qed.

Lemma includes_refl s : Js.includes s s = true.
Proof.
  destruct s; [reflexivity|]. cbn [Js.includes].
  rewrite prefix_refl. reflexivity.
Qed.

Lemma includes_empty s : Js.includes s "" = true.
Proof. destruct s; reflexivity. Qed.

Lemma exactMatch_substringMatch q t : exactMatch q t -> substringMatch q t.
Proof.
  unfold exactMatch, substringMatch. intros ->. apply includes_refl.
Qed.

Lemma or_find_some {A} (a b : option A) x :
  or_find a b = Some x -> a = Some x \/ b = Some x.
Proof. destruct a; simpl; auto. Qed.

Lemma or_find_none {A} (a b : option A) :
  or_find a b = None <-> a = None /\ b = None.
Proof.
  destruct a; simpl; split.
  - discriminate.
  - intros [H _]. discriminate H.
  - auto.
  - intros [_ H]. exact H.
Qed.

Lemma findTeam_some teams q t :
  findTeam teams q = Some t ->
  In t teams /\ (exactMatch q t \/ shortMatch q t \/ substringMatch q t).
Proof.
  unfold findTeam. cbv zeta. intros H.
  apply or_find_some in H. destruct H as [H|H].
  - apply List.find_some in H. destruct H as [Hin H].
    split; [exact Hin|]. left. apply String.eqb_eq in H. exact H.
  - apply or_find_some in H. destruct H as [H|H];
      apply List.find_some in H; destruct H as [Hin H];
      (split; [exact Hin|]).
    + right; left. apply String.eqb_eq in H. exact H.
    + right; right. exact H.
Qed.

Lemma findTeam_none_iff teams q :
  findTeam teams q = None <->
  forall t, In t teams -> ~ shortMatch q t /\ ~ substringMatch q t.
Proof.
  split.
  - unfold findTeam. cbv zeta. intros H.
    apply or_find_none in H. destruct H as [_ H].
    apply or_find_none in H. destruct H as [Hs Hsub].
    intros t Hin. split; intros Hm.
    + pose proof (List.find_none _ _ Hs t Hin) as Hf. cbv beta in Hf.
      apply (proj2 (String.eqb_eq _ _)) in Hm. congruence.
    + pose proof (List.find_none _ _ Hsub t Hin) as Hf. cbv beta in Hf.
      unfold substringMatch in Hm. congruence.
  - intros H. apply findTeam_none; apply List.Forall_forall; intros t Hin;
      destruct (H t Hin) as [Hs Hsub]; auto.
    intros He. apply Hsub. apply exactMatch_substringMatch. exact He.
Qed.

(** The team search is sound and gives up only for want of a match: an
    id it returns is the id of a team of the list that matches the name
    in one of the three ways, and it fails (always with the resolution
    error that quotes the name) exactly when no team of the list matches
    by short name or contains the name in its full name. *)
Theorem getTeamIdByName_sound_and_complete
    (dc : DataClient) (teams : list Team.t) (q : string)
    (Hteams : teamsResponse dc = Ok (Some teams)) :
  (forall i, getTeamIdByName dc q = Ok i ->
     exists t, In t teams /\ Team.id t = i /\
       (exactMatch q t \/ shortMatch q t \/ substringMatch q t)) /\
  (getTeamIdByName dc q = Throw (ResolutionError q) <->
   forall t, In t teams -> ~ shortMatch q t /\ ~ substringMatch q t) /\
  (forall e, getTeamIdByName dc q = Throw e -> e = ResolutionError q).
Proof.
  unfold getTeamIdByName, fetchTeamsAFL. rewrite Hteams.
  cbn [res_bind default from_option id].
  destruct (findTeam teams q) as [t|] eqn:E.
  - split; [|split].
    + intros i Hi. inversion Hi; subst i.
      destruct (findTeam_some _ _ _ E) as [Hin Hm]. exists t. auto.
    + split; [discriminate|]. intros H.
      apply findTeam_none_iff in H. congruence.
    + discriminate.
  - split; [discriminate|]. split.
    + split; [|reflexivity]. intros _. apply findTeam_none_iff. exact E.
    + intros e He. inversion He. reflexivity.
Qed.

Lemma getTeamIdByName_sound_and_complete_witness :
  getTeamIdByName threeDogs "mesa" = Throw (ResolutionError "mesa").
Proof.
  apply (proj1 (proj2 (getTeamIdByName_sound_and_complete threeDogs
           [dogsBySubstring; dogsByShortName; dogsByName] "mesa" eq_refl))).
  intros t Ht. simpl in Ht.
  repeat (destruct Ht as [<-|Ht];
          [split; unfold shortMatch, substringMatch; vm_compute; discriminate|]).
  contradiction.
Defined.

(** An empty team name never fails on a list that has a team: every full
    name contains the empty string, so the search answers with a team of
    the list; when every team has a non-empty full name and a non-empty
    short name it is the first team of the list. *)
Theorem getTeamIdByName_empty_name
    (dc : DataClient) (t : Team.t) (rest : list Team.t)
    (Hteams : teamsResponse dc = Ok (Some (t :: rest))) :
  (exists t', In t' (t :: rest) /\ getTeamIdByName dc "" = Ok (Team.id t')) /\
  ((forall x, In x (t :: rest) ->
      Team.name x <> "" /\ nonEmpty (Team.teamName x)) ->
   getTeamIdByName dc "" = Ok (Team.id t)).
Proof.
  unfold getTeamIdByName, fetchTeamsAFL. rewrite Hteams.
  cbn [res_bind default from_option id]. split.
  - destruct (findTeam (t :: rest) "") as [t'|] eqn:E.
    + exists t'. split; [|reflexivity]. apply (findTeam_some _ _ _ E).
    + exfalso. pose proof (proj1 (findTeam_none_iff _ _) E t) as H.
      destruct H as [_ H]; [left; reflexivity|].
      apply H. unfold substringMatch. apply includes_empty.
  - intros Hall.
    rewrite (findTeam_substring "" (t :: rest) t); [reflexivity| | |].
    + apply List.Forall_forall. intros x Hx He.
      apply (proj1 (toLowerCase_empty _)) in He.
      destruct (Hall x Hx) as [Hn _]. contradiction.
    + apply List.Forall_forall. intros x Hx He.
      apply (proj1 (toLowerCase_empty _)) in He.
      destruct (Hall x Hx) as [_ (s & Hs & Hne)].
      unfold Js.or_else in He. rewrite Hs in He. simpl in He.
      destruct (String.eqb s "") eqn:Es; simpl in He; [|contradiction].
      apply String.eqb_eq in Es. contradiction.
    + exists [], rest. split; [reflexivity|]. split; [constructor|].
      unfold substringMatch. apply includes_empty.
Qed.

Lemma getTeamIdByName_empty_name_witness :
  getTeamIdByName (provider []) "" = Ok 17.
Proof.
  apply (proj2 (getTeamIdByName_empty_name (provider []) desertDogs []
                  eq_refl)).
  intros x [<-|[]]. split; [discriminate|].
  exists "Desert Dogs". split; [reflexivity|discriminate].
Defined.

(** ** The date window: the route and the resolver; west of UTC *)

Section Truthy.

Variables (tz : Z) (dc : DataClient) (teamId : Z).
Variable sched : Z -> option Game.
Hypothesis Hsched : forall d, scheduleResponse dc teamId d = Ok (sched d).
Hypothesis Hnz : forall d g, sched d = Some g -> game_gamePk g <> 0.

Lemma getScheduleForDate_truthy d :
  exists h, getScheduleForDate dc teamId d = Ok h /\ hasGamePk h = h.
Proof.
  unfold getScheduleForDate. rewrite Hsched. cbn [res_bind].
  eexists; split; [reflexivity|].
  destruct (sched d) as [g|] eqn:E; [|reflexivity]. cbn [hasGamePk gamePk].
  destruct (game_gamePk g =? 0) eqn:Ez; [|reflexivity].
  apply Z.eqb_eq in Ez. destruct (Hnz d g E Ez).
Qed.

Lemma searchDays_tests_agree day sign steps :
  searchDays tz dc (fun h => h) teamId day sign steps
  = searchDays tz dc hasGamePk teamId day sign steps.
Proof.
  induction steps as [|i rest IH]; [reflexivity|]. cbn [searchDays].
  destruct (getScheduleForDate_truthy
              (ymd tz (setDate (newDate day) (sign * i)))) as (h & Hh & Hid).
  rewrite Hh. cbn [res_bind]. rewrite Hid.
  destruct h; [reflexivity|exact IH].
Qed.

Lemma aflGamePk_as_resolver today team day :
  getTeamIdByName dc team = Ok teamId ->
  match resolveGamePkIfNeeded tz dc today team (Some day) None false with
  | Ok k =>
      exists h, aflGamePk tz dc team day = ReplyGame h /\
                pretty (gamePk h) = k
  | Throw e =>
      e = NoEventFoundError /\
      aflGamePk tz dc team day
      = ReplyNoGame "No game found in +/-3 days" day
  end.
Proof.
  intros Hteam. unfold resolveGamePkIfNeeded, aflGamePk.
  simpl Js.truthy. cbv iota. rewrite Hteam.
  cbn [res_bind default from_option id].
  destruct (getScheduleForDate_truthy day) as (h & Hh & Hid).
  rewrite Hh. cbn [res_bind]. rewrite Hid.
  destruct h as [x|]; [exists x; split; reflexivity|].
  rewrite !searchDays_tests_agree.
  destruct (searchDays_firstScheduled tz dc teamId sched Hsched day (-1)
              [1; 2; 3]) as (b & Hb & _).
  rewrite Hb. cbn [res_bind].
  destruct b as [x|]; [exists x; split; reflexivity|].
  destruct (searchDays_firstScheduled tz dc teamId sched Hsched day 1
              [1; 2; 3]) as (f & Hf & _).
  rewrite Hf. cbn [res_bind].
  destruct f as [x|]; [exists x; split; reflexivity|].
  split; reflexivity.
Qed.

End Truthy.

(** The lookup route and the resolver of the watcher pick the same game:
    when the team resolves, every schedule request succeeds and every
    scheduled game has a truthy [gamePk], [GET /api/afl/gamePk] answers
    with the game whose [gamePk] [resolveGamePkIfNeeded] returns; and
    where the resolver throws its no-game error the route answers
    normally, with a null [gamePk] and the status text for no game within
    three days. *)
Theorem aflGamePk_agrees_with_resolver
    (tz : Z) (dc : DataClient) (teamId : Z) (sched : Z -> option Game)
    (today : Z) (team : string) (day : Z)
    (Hteam : getTeamIdByName dc team = Ok teamId)
    (Hsched : forall d, scheduleResponse dc teamId d = Ok (sched d))
    (Hnz : forall d g, sched d = Some g -> game_gamePk g <> 0) :
  match resolveGamePkIfNeeded tz dc today team (Some day) None false with
  | Ok k =>
      exists h, aflGamePk tz dc team day = ReplyGame h /\
                pretty (gamePk h) = k
  | Throw e =>
      e = NoEventFoundError /\
      aflGamePk tz dc team day
      = ReplyNoGame "No game found in +/-3 days" day
  end.
Proof.
  exact (aflGamePk_as_resolver tz dc teamId sched Hsched Hnz today team day
           Hteam).
Qed.

Lemma gameOn_truthy d g :
  gameOn [(oct15 + 1, 801); (oct15 - 2, 802)] d = Some g ->
  game_gamePk g <> 0.
Proof.
  unfold gameOn.
  destruct (find _ _) as [kv|] eqn:E; [|discriminate].
  intros Hg. inversion Hg; subst g. cbn [game_gamePk].
  apply List.find_some in E. destruct E as [Hin _].
  destruct Hin as [<-|[<-|[]]]; discriminate.
Qed.

Lemma aflGamePk_agrees_with_resolver_witness :
  exists h,
    aflGamePk 0 (provider [(oct15 + 1, 801); (oct15 - 2, 802)])
              "desert dogs" oct15 = ReplyGame h /\
    pretty (gamePk h) = "802".
Proof.
  exact (aflGamePk_agrees_with_resolver 0
           (provider [(oct15 + 1, 801); (oct15 - 2, 802)]) 17
           (gameOn [(oct15 + 1, 801); (oct15 - 2, 802)])
           oct15 "desert dogs" oct15 eq_refl (fun d => eq_refl)
           gameOn_truthy).
Defined.



(** ** The registry: stopping, starting, listing *)

(** A stop request for an id that is not registered answers [false] and
    changes nothing; a second stop of the same id does exactly that
    (stopping is idempotent-safe); a stop leaves every other registration
    and every other [state] object as they were; and a stop of a
    registered id answers [true], takes the id out of the registry and
    leaves its [state] object stopped with no timeout pending. *)
Theorem stopWatcher_idempotent_and_local :
  forall k w,
    (watchers w !! k = None -> stopWatcher k w = (w, false)) /\
    stopWatcher k (fst (stopWatcher k w)) = (fst (stopWatcher k w), false) /\
    (forall k', k' <> k ->
       watchers (fst (stopWatcher k w)) !! k' = watchers w !! k') /\
    (forall l, watchers w !! k <> Some l ->
       store (fst (stopWatcher k w)) !! l = store w !! l) /\
    (forall l, watchers w !! k = Some l ->
       snd (stopWatcher k w) = true /\
       watchers (fst (stopWatcher k w)) !! k = None /\
       store (fst (stopWatcher k w)) !! l
       = (fun st => Watch.set_timer None (Watch.set_stopped true st))
           <$> store w !! l).
Proof.
  intros k w.
  assert (Hnone : forall w0, watchers w0 !! k = None ->
                             stopWatcher k w0 = (w0, false)).
  { intros w0 H. unfold stopWatcher. rewrite H. reflexivity. }
  split; [apply Hnone|].
  unfold stopWatcher at 2 3 4 5 6 7 8.
  destruct (watchers w !! k) as [l|] eqn:E; cbn [fst snd].
  - split; [apply Hnone; cbn [watchers]; apply lookup_delete_eq|].
    split; [intros k' Hne; cbn [watchers modify];
            apply lookup_delete_ne; congruence|].
    split.
    + intros l' Hl'. cbn [store modify].
      rewrite !lookup_alter_ne by congruence. reflexivity.
    + intros l' Hl'. inversion Hl'; subst l'.
      split; [reflexivity|]. split; [cbn [watchers]; apply lookup_delete_eq|].
      cbn [store modify]. rewrite !lookup_alter_eq.
      destruct (store w !! l); reflexivity.
  - split; [apply Hnone; exact E|].
    split; [reflexivity|]. split; [reflexivity|]. discriminate.
Qed.

Lemma fresh_id w :
  world_ok w ->
  watchers w !! pretty (nextWatchId w) = None /\
  store w !! nextWatchId w = None.
Proof.
  intros [H1 H2].
  assert (Hstore : store w !! nextWatchId w = None).
  { destruct (store w !! nextWatchId w) as [st|] eqn:E; [|reflexivity].
    destruct (H2 _ st E) as (Hlt & _). lia. }
  split; [|exact Hstore].
  destruct (watchers w !! pretty (nextWatchId w)) as [l|] eqn:E;
    [|reflexivity].
  destruct (H1 _ _ E) as (Hl & st & Hst & _).
  apply (inj pretty) in Hl. subst l. congruence.
Qed.

(** The list of watchers reads the registry and, through it, the [state]
    objects of the registered watchers only. *)
Lemma listWatchers_ext w1 w2 :
  watchers w1 = watchers w2 ->
  (forall k l, watchers w1 !! k = Some l -> store w1 !! l = store w2 !! l) ->
  listWatchers w1 = listWatchers w2.
Proof.
  intros Hw Hs. unfold listWatchers. rewrite <- Hw.
  apply list_omap_ext. apply Forall2_same_length_lookup.
  split; [reflexivity|].
  intros i [k l] [k' l'] H1 H2. rewrite H1 in H2. inversion H2; subst.
  cbn [snd]. rewrite (Hs k' l'); [reflexivity|].
  apply elem_of_map_to_list. eapply list_elem_of_lookup_2. exact H1.
Qed.

(** Starting a watcher and stopping it again is a round trip on the
    registry: in a world that keeps the registry invariant the stop of the
    id just given out answers [true], and afterwards the registry and the
    list of watchers are what they were before the start, no other [state]
    object has changed, and the id is not given out again. *)
Theorem start_then_stop_round_trip
    (params_ : Params.t) (w : World) (Hok : world_ok w) :
  let started := startAdaptiveWatcher params_ w in
  let w1 := fst (fst started) in
  let id_ := snd (fst started) in
  snd (stopWatcher id_ w1) = true /\
  watchers (fst (stopWatcher id_ w1)) = watchers w /\
  listWatchers (fst (stopWatcher id_ w1)) = listWatchers w /\
  (forall l, l <> nextWatchId w ->
     store (fst (stopWatcher id_ w1)) !! l = store w !! l) /\
  nextWatchId (fst (stopWatcher id_ w1)) = (nextWatchId w + 1)%N.
Proof.
  cbv zeta. destruct (fresh_id w Hok) as [Hfresh Hstore].
  unfold startAdaptiveWatcher. cbn [fst snd].
  unfold stopWatcher. cbn [watchers]. rewrite lookup_insert_eq.
  cbn [fst snd watchers store nextWatchId modify].
  assert (Hw : delete (pretty (nextWatchId w))
                 (<[pretty (nextWatchId w) := nextWatchId w]> (watchers w))
               = watchers w) by (apply delete_insert_id; exact Hfresh).
  assert (Hs : forall l, l <> nextWatchId w ->
    alter (Watch.set_timer None) (nextWatchId w)
      (alter (Watch.set_stopped true) (nextWatchId w)
         (<[nextWatchId w :=
              {| Watch.id := pretty (nextWatchId w);
                 Watch.params := params_;
                 Watch.lastInGame := false; Watch.lastAlertAt := 0;
                 Watch.stopped := false; Watch.timer := None |}]>
            (store w))) !! l = store w !! l).
  { intros l Hl. rewrite !lookup_alter_ne by congruence.
    apply lookup_insert_ne. congruence. }
  split; [reflexivity|]. split; [exact Hw|]. split; [|split; [exact Hs|reflexivity]].
  apply listWatchers_ext; cbn [watchers store]; [exact Hw|].
  intros k l Hk. rewrite Hw in Hk. apply Hs.
  intros ->. destruct Hok as [H1 _].
  destruct (H1 _ _ Hk) as (_ & st & Hst & _). congruence.
Qed.

Lemma start_then_stop_round_trip_witness :
  listWatchers
    (fst (stopWatcher
            (snd (fst (startAdaptiveWatcher (watchParams None (Some false))
                         (startedWorld None None))))
            (fst (fst (startAdaptiveWatcher (watchParams None (Some false))
                         (startedWorld None None))))))
  = listWatchers (startedWorld None None).
Proof.
  apply (start_then_stop_round_trip (watchParams None (Some false))
           (startedWorld None None)).
  apply startedWorld_ok.
Defined.

Lemma listed_ids w (l : list (string * N)) :
  (forall kl, kl ∈ l ->
     exists st, store w !! kl.2 = Some st /\ Watch.id st = kl.1) ->
  s_id <$> omap (fun kl => summary <$> store w !! kl.2) l = l.*1.
Proof.
  induction l as [|[k n] l IH]; intros H; [reflexivity|]. csimpl.
  destruct (H (k, n)) as (st & Hst & Hid); [left|].
  cbn [fst snd] in Hst, Hid. rewrite Hst. csimpl.
  rewrite IH; [|intros kl Hkl; apply H; right; exact Hkl].
  cbn [summary s_id]. rewrite Hid. reflexivity.
Qed.

(** The list of watchers is the registry made visible: in a world that
    keeps the registry invariant it has exactly one summary for each
    registered id (as many entries as the registry, no id twice, an id is
    listed exactly when it is registered), and each summary shows the
    fields of the [state] object of a watcher that has not been
    stopped. *)
Theorem listWatchers_is_the_registry (w : World) (Hok : world_ok w) :
  length (listWatchers w) = size (watchers w) /\
  NoDup (s_id <$> listWatchers w) /\
  (forall k, k ∈ s_id <$> listWatchers w <-> is_Some (watchers w !! k)) /\
  (forall x, x ∈ listWatchers w ->
     exists l st,
       watchers w !! s_id x = Some l /\ store w !! l = Some st /\
       x = summary st /\ Watch.stopped st = false).
Proof.
  assert (Hids : s_id <$> listWatchers w = (map_to_list (watchers w)).*1).
  { unfold listWatchers. apply listed_ids. intros [k l] Hkl.
    apply elem_of_map_to_list in Hkl. cbn [fst snd].
    destruct Hok as [H1 H2]. destruct (H1 _ _ Hkl) as (-> & st & Hst & _).
    exists st. split; [exact Hst|]. apply (H2 _ _ Hst). }
  split; [|split; [|split]].
  - rewrite <- (length_fmap s_id), Hids, length_fmap.
    apply length_map_to_list.
  - rewrite Hids. apply NoDup_fst_map_to_list.
  - intros k. rewrite Hids, list_elem_of_fmap. split.
    + intros ([k' l] & -> & Hkl). apply elem_of_map_to_list in Hkl.
      cbn [fst]. rewrite Hkl. eexists; reflexivity.
    + intros [l Hl]. exists (k, l). split; [reflexivity|].
      apply elem_of_map_to_list. exact Hl.
  - intros x Hx. unfold listWatchers in Hx.
    apply list_elem_of_omap in Hx. destruct Hx as ([k l] & Hkl & Hsum).
    apply elem_of_map_to_list in Hkl. cbn [snd] in Hsum.
    destruct Hok as [H1 H2]. destruct (H1 _ _ Hkl) as (-> & st & Hst & Hlive).
    rewrite Hst in Hsum. inversion Hsum; subst x. cbn [summary s_id].
    destruct (H2 _ _ Hst) as (_ & -> & _). exists l, st. auto.
Qed.

Lemma listWatchers_is_the_registry_witness :
  length (listWatchers (startedWorld None None))
  = size (watchers (startedWorld None None)).
Proof.
  apply (listWatchers_is_the_registry (startedWorld None None)).
  apply startedWorld_ok.
Defined.

(** ** The routes of the watcher *)

(** [POST /api/watch/start] registers a watcher or changes nothing. It
    answers 400, leaving the world as it was and starting no poll, exactly
    when the body names no player or the resolution of the game fails
    (the error text is then the message of the failure). Otherwise it
    answers with the resolved [gamePk] and a new id, the decimal of
    [nextWatchId], which was not registered before; the new watcher is
    registered under it, starts not-active with [lastAlertAt] 0, not
    stopped, with the cooldown and the auto-stop of the body (300 seconds
    and true when the body gives none), earlier registrations are kept,
    and the registry invariant holds after it. *)
Theorem watchStart_registers_or_changes_nothing
    (tz : Z) (dc : DataClient) (today : Z) (b : StartBody) (w : World)
    (Hok : world_ok w) :
  match snd (fst (watchStart tz dc today b w)) with
  | StartError code msg =>
      code = 400 /\
      fst (fst (watchStart tz dc today b w)) = w /\
      snd (watchStart tz dc today b w) = None /\
      ((~ nonEmpty (b_playerName b) /\ msg = "playerName is required") \/
       (nonEmpty (b_playerName b) /\
        exists e, resolvedPk tz dc today b = Throw e /\ msg = message_of e))
  | StartOk i pk =>
      let w' := fst (fst (watchStart tz dc today b w)) in
      nonEmpty (b_playerName b) /\
      resolvedPk tz dc today b = Ok pk /\
      i = pretty (nextWatchId w) /\
      watchers w !! i = None /\
      watchers w' = <[i := nextWatchId w]> (watchers w) /\
      world_ok w' /\
      exists c st,
        snd (watchStart tz dc today b w) = Some c /\
        c_id c = i /\ registered c w' /\ stateOf c w' = Some st /\
        Watch.id st = i /\
        Watch.lastInGame st = false /\ Watch.lastAlertAt st = 0 /\
        Watch.stopped st = false /\ Watch.timer st = None /\
        c_gamePk c = pk /\
        c_cooldownSec c = default 300 (b_cooldownSec b) /\
        c_stopAfterAlert c = default true (b_stopAfterAlert b)
  end.
Proof.
  unfold watchStart, resolvedPk. cbv zeta.
  destruct (Js.truthy (b_playerName b)) eqn:Ep; cbn [negb].
  2:{ cbn [fst snd]. split; [reflexivity|]. split; [reflexivity|].
      split; [reflexivity|]. left. split; [|reflexivity].
      intros H. apply truthy_nonEmpty in H. congruence. }
  apply truthy_nonEmpty in Ep.
  destruct (resolveGamePkIfNeeded _ _ _ _ _ _ _) as [pk|e] eqn:Er.
  2:{ cbn [fst snd]. split; [reflexivity|]. split; [reflexivity|].
      split; [reflexivity|]. right. split; [exact Ep|].
      exists e. split; reflexivity. }
  pose proof (world_ok_start
    {| Params.team := default "Glendale Desert Dogs" (b_team b);
       Params.playerName := default "" (b_playerName b);
       Params.date := Some (default today (b_date b));
       Params.gamePk := pk;
       Params.simulate := default false (b_simulate b);
       Params.emailTo := b_emailTo b;
       Params.cooldownSec := Some (default 300 (b_cooldownSec b));
       Params.stopAfterAlert := Some (default true (b_stopAfterAlert b)) |}
    w Hok) as Hok'.
  destruct (fresh_id w Hok) as [Hfresh _].
  unfold startAdaptiveWatcher in *. cbn [fst snd] in *.
  split; [exact Ep|]. split; [reflexivity|]. split; [reflexivity|].
  split; [exact Hfresh|]. split; [reflexivity|]. split; [exact Hok'|].
  eexists _, _. split; [reflexivity|]. cbn.
  split; [reflexivity|]. split; [apply lookup_insert_eq|].
  split; [apply lookup_insert_eq|]. repeat split; reflexivity.
Qed.

Lemma watchStart_registers_or_changes_nothing_witness :
  fst (fst (watchStart 0 (provider [])
              oct15
              {| b_team := Some "Mesa"; b_playerName := Some "Cade Doughty";
                 b_date := None; b_gamePk := None; b_simulate := None;
                 b_emailTo := None; b_cooldownSec := None;
                 b_stopAfterAlert := None |}
              (startedWorld None None)))
  = startedWorld None None.
Proof.
  pose proof
    (watchStart_registers_or_changes_nothing 0 (provider []) oct15
       {| b_team := Some "Mesa"; b_playerName := Some "Cade Doughty";
          b_date := None; b_gamePk := None; b_simulate := None;
          b_emailTo := None; b_cooldownSec := None;
          b_stopAfterAlert := None |}
       (startedWorld None None) (startedWorld_ok None None)) as H.
  vm_compute in H. vm_compute. apply H.
Defined.

(** [POST /api/watch/stop] answers 400 and changes nothing when the body
    has no id (or an empty one); otherwise it answers with [ok], which is
    true exactly when the id was registered; afterwards the id is not
    registered, and when [ok] is false the world is as it was. *)
Theorem watchStop_outcome :
  forall id_ w,
    match snd (watchStop id_ w) with
    | StopError code msg =>
        code = 400 /\ msg = "id is required" /\
        ~ nonEmpty id_ /\ fst (watchStop id_ w) = w
    | StopOk ok =>
        exists k,
          id_ = Some k /\ k <> "" /\
          (ok = true <-> is_Some (watchers w !! k)) /\
          watchers (fst (watchStop id_ w)) !! k = None /\
          (ok = false -> fst (watchStop id_ w) = w)
    end.
Proof.
  intros id_ w. unfold watchStop.
  destruct (Js.truthy id_) eqn:Ei; cbn [negb].
  2:{ cbn [fst snd]. repeat split.
      intros H. apply truthy_nonEmpty in H. congruence. }
  apply truthy_nonEmpty in Ei. destruct Ei as (k & -> & Hk).
  cbn [default from_option id]. unfold stopWatcher.
  destruct (watchers w !! k) as [l|] eqn:E; cbn [fst snd].
  - exists k. split; [reflexivity|]. split; [exact Hk|].
    split; [split; [intros _; rewrite E; eexists; reflexivity|reflexivity]|].
    split; [cbn [watchers]; apply lookup_delete_eq|discriminate].
  - exists k. split; [reflexivity|]. split; [exact Hk|].
    split; [split; [discriminate|rewrite E; intros [? H]; discriminate H]|].
    split; [exact E|reflexivity].
Qed.

(** ** The polling loop *)

(** The three ways through [loop], as one case distinction. *)
Lemma loop_cases c p w st :
  stateOf c w = Some st ->
  (exists e,
     statusOf c p = Throw e /\
     loop c p w = (scheduleNext c POLL_SLOW w,
                   [ConsoleError ("Watcher error: " ++ message_of e)])) \/
  (exists s,
     statusOf c p = Ok s /\
     loop c p w =
     (scheduleNext c (intervalFor (Status.rawGameState s))
        (modify (c_state c) (Watch.set_lastInGame (Status.inGame s)) w),
      [])) \/
  (exists s,
     statusOf c p = Ok s /\
     Watch.lastInGame st = false /\ Status.inGame s = true /\
     c_cooldownSec c * 1000 <= now p - Watch.lastAlertAt st /\
     loop c p w =
     (if c_stopAfterAlert c
      then fst (stopWatcher (c_id c)
                  (modify (c_state c) (Watch.set_lastAlertAt (now p)) w))
      else scheduleNext c (intervalFor (Status.rawGameState s))
             (modify (c_state c) (Watch.set_lastInGame (Status.inGame s))
                (modify (c_state c) (Watch.set_lastAlertAt (now p)) w)),
      Alert (now p) (fst (alertText c p s)) (snd (alertText c p s))
      :: mailEvents c p (fst (alertText c p s)) (snd (alertText c p s)))).
Proof.
  intros Hst.
  destruct (statusOf c p) as [s|e] eqn:Hs.
  2:{ left. exists e. split; [reflexivity|]. apply loop_failed. exact Hs. }
  right.
  destruct (Watch.lastInGame st) eqn:E1.
  { left. exists s. split; [reflexivity|].
    apply (loop_quiet c p w s st Hs Hst). auto. }
  destruct (Status.inGame s) eqn:E2.
  2:{ left. exists s. split; [reflexivity|].
      apply (loop_quiet c p w s st Hs Hst). auto. }
  destruct (Z_lt_le_dec (now p - Watch.lastAlertAt st) (c_cooldownSec c * 1000))
    as [Hlt|Hle].
  { left. exists s. split; [reflexivity|].
    apply (loop_quiet c p w s st Hs Hst). auto. }
  right. exists s. split; [reflexivity|].
  split; [reflexivity|]. split; [exact E2|]. split; [exact Hle|].
  rewrite (loop_alert c p w s st Hs Hst E1 E2 Hle), E2. reflexivity.
Qed.




Lemma scheduleNext_stopped c ms w st :
  stateOf c w = Some st -> Watch.stopped st = true -> scheduleNext c ms w = w.
Proof.
  unfold stateOf, scheduleNext. intros -> ->. reflexivity.
Qed.

(** Stopped is terminal: in a world that keeps the registry invariant, a
    run of [loop] on a watcher that has been stopped (its feed request
    was under way when the stop came) never sets a timeout and never
    registers the watcher again, whatever the poll brings, so no later
    poll of that watcher takes place. *)
Theorem stopped_watcher_is_never_rescheduled
    (c : Closure) (p : Poll) (w : World) (st : Watch.state)
    (Hok : world_ok w) (Hst : stateOf c w = Some st)
    (Hid : Watch.id st = c_id c) (Hstopped : Watch.stopped st = true) :
  (exists st',
     stateOf c (fst (loop c p w)) = Some st' /\
     Watch.stopped st' = true /\ Watch.timer st' = None) /\
  watchers (fst (loop c p w)) = watchers w /\
  watchers w !! c_id c = None /\
  (forall rest, snd (run c (p :: rest) w) = [snd (loop c p w)]).
Proof.
  destruct (closure_registered c w st Hok Hst Hid)
    as (_ & Hcases & Hgone & Hreg).
  assert (Hnone : watchers w !! c_id c = None).
  { destruct Hcases as [H|H]; [exact H|].
    destruct (proj1 Hok _ _ H) as (_ & st0 & Hst0 & Hlive).
    unfold stateOf in Hst. congruence. }
  destruct (Hgone Hnone) as [_ Htimer].
  assert (Hmain :
    (exists st',
       stateOf c (fst (loop c p w)) = Some st' /\
       Watch.stopped st' = true /\ Watch.timer st' = None) /\
    watchers (fst (loop c p w)) = watchers w).
  { destruct (loop_cases c p w st Hst)
      as [(e & Hs & ->)|[(s & Hs & ->)|(s & Hs & Hin & Hact & Hcool & ->)]];
      cbn [fst snd].
    - rewrite (scheduleNext_stopped c _ w st Hst Hstopped). eauto.
    - erewrite scheduleNext_stopped;
        [|rewrite stateOf_modify, Hst; reflexivity|exact Hstopped].
      rewrite stateOf_modify, Hst. split; [|reflexivity].
      eexists; split; [reflexivity|]. auto.
    - destruct (c_stopAfterAlert c).
      + unfold stopWatcher. rewrite watchers_modify, Hnone. cbn [fst].
        rewrite stateOf_modify, Hst. split; [|reflexivity].
        eexists; split; [reflexivity|]. auto.
      + erewrite scheduleNext_stopped;
          [|rewrite !stateOf_modify, Hst; reflexivity|exact Hstopped].
        rewrite !stateOf_modify, Hst. split; [|reflexivity].
        eexists; split; [reflexivity|]. auto. }
  destruct Hmain as [(st' & Hst' & Hstop' & Htimer') Hw].
  split; [eauto|]. split; [exact Hw|]. split; [exact Hnone|].
  intros rest. rewrite run_cons.
  rewrite (pending_timer c _ st' Hst' Htimer'). reflexivity.
Qed.

(** The watcher of [startedWorld], stopped while its first poll is under
    way. *)
Lemma stopped_watcher_is_never_rescheduled_witness :
  watchers (fst (loop (startedClosure None (Some false))
                      (pollAt t0 (Ok announcedOnly))
                      (fst (stopWatcher "1" (startedWorld None (Some false))))))
  = watchers (fst (stopWatcher "1" (startedWorld None (Some false)))).
Proof.
  apply (stopped_watcher_is_never_rescheduled
           (startedClosure None (Some false)) (pollAt t0 (Ok announcedOnly))
           (fst (stopWatcher "1" (startedWorld None (Some false))))
           (Watch.set_timer None
              (Watch.set_stopped true (freshState None (Some false))))).
  - apply world_ok_stopWatcher, startedWorld_ok.
  - vm_compute. reflexivity.
  - reflexivity.
  - reflexivity.
Defined.

Lemma allAlertTimes_cons evs evss :
  allAlertTimes (evs :: evss) = (alertTimes evs ++ allAlertTimes evss)%list.
Proof. reflexivity. Qed.

Lemma alertOnlyInLastRun_single evs :
  (alerts evs <= 1)%nat -> alertOnlyInLastRun [evs].
Proof.
  intros Hle before evs' after Heq Hne.
  destruct before as [|x before]; cbn in Heq.
  - inversion Heq; subst. split; [reflexivity|lia].
  - inversion Heq. destruct before; discriminate.
Qed.

Lemma alertOnlyInLastRun_quiet evs evss :
  alerts evs = 0%nat -> alertOnlyInLastRun evss ->
  alertOnlyInLastRun (evs :: evss).
Proof.
  intros Hq Hrest before evs' after Heq Hne.
  destruct before as [|x before]; cbn in Heq.
  - inversion Heq; subst. contradiction.
  - inversion Heq; subst. apply (Hrest before evs' after eq_refl Hne).
Qed.

(** A watcher that stops on its alert alerts at most once in its life:
    over any sequence of polls (no timeout pending at the start, as for
    every poll under way) at most one alert is decided, and the run that
    decides it is the last run of the watcher. *)
Theorem auto_stop_alerts_at_most_once (c : Closure) (polls : list Poll) :
  forall (w : World) (st : Watch.state)
         (Hstop : c_stopAfterAlert c = true)
         (Hst : stateOf c w = Some st)
         (Htimer : Watch.timer st = None),
    (length (allAlertTimes (snd (run c polls w))) <= 1)%nat /\
    alertOnlyInLastRun (snd (run c polls w)).
Proof.
  induction polls as [|p rest IH]; intros w st Hstop Hst Htimer.
  - split; [simpl; lia|]. intros [|? ?] ? ? Heq; discriminate Heq.
  - rewrite run_cons, allAlertTimes_cons.
    destruct (loop_alert_clock c p w st Hst)
      as (st' & Hst' & [[Hquiet _]|(Htimes & _ & _)]).
    + rewrite Hquiet. cbn [app].
      assert (Hzero : alerts (snd (loop c p w)) = 0%nat)
        by (unfold alerts; rewrite Hquiet; reflexivity).
      destruct (pending _ _).
      * destruct (IH (fire c (fst (loop c p w))) (Watch.set_timer None st')
                    Hstop) as [Hlen Hlast];
          [rewrite stateOf_fire, Hst'; reflexivity|reflexivity|].
        split; [exact Hlen|].
        apply alertOnlyInLastRun_quiet; assumption.
      * split; [simpl; lia|].
        apply alertOnlyInLastRun_single. lia.
    + assert (Hone : alerts (snd (loop c p w)) = 1%nat)
        by (unfold alerts; rewrite Htimes; reflexivity).
      assert (Hpend : pending c (fst (loop c p w)) = false).
      { destruct (loop_cases c p w st Hst)
          as [(e & _ & Hloop)|[(s & _ & Hloop)|(s & _ & _ & _ & _ & Hloop)]];
          try (rewrite Hloop in Htimes; discriminate Htimes).
        rewrite Hloop, Hstop. cbn [fst].
        destruct (stateOf_stopWatcher c (c_id c)
                    (modify (c_state c) (Watch.set_lastAlertAt (now p)) w)
                    (Watch.set_lastAlertAt (now p) st)) as [H|H];
          [rewrite stateOf_modify, Hst; reflexivity| |];
          apply (pending_timer _ _ _ H); simpl; auto. }
      rewrite Hpend, Htimes. split; [simpl; lia|].
      apply alertOnlyInLastRun_single. lia.
Qed.

Lemma auto_stop_alerts_at_most_once_witness :
  (length (allAlertTimes
             (snd (run (startedClosure None None)
                       [pollAt t0 (Ok notYet);
                        pollAt (t0 + 5000) (Ok announcedOnly);
                        pollAt (t0 + 400000) (Ok notYet);
                        pollAt (t0 + 800000) (Ok announcedOnly)]
                       (startedWorld None None)))) <= 1)%nat.
Proof.
  apply (auto_stop_alerts_at_most_once (startedClosure None None)
           [pollAt t0 (Ok notYet);
            pollAt (t0 + 5000) (Ok announcedOnly);
            pollAt (t0 + 400000) (Ok notYet);
            pollAt (t0 + 800000) (Ok announcedOnly)]
           (startedWorld None None) (freshState None None)).
  - reflexivity.
  - vm_compute. reflexivity.
  - reflexivity.
Defined.

Lemma store_scheduleNext c ms w l :
  l <> c_state c -> store (scheduleNext c ms w) !! l = store w !! l.
Proof.
  intros Hne. unfold scheduleNext.
  destruct (store w !! c_state c) as [st|]; [|reflexivity].
  destruct (Watch.stopped st); [reflexivity|].
  rewrite store_modify. destruct (decide (c_state c = l)); congruence.
Qed.

Lemma store_modify_ne l f w l' :
  l' <> l -> store (modify l f w) !! l' = store w !! l'.
Proof.
  intros Hne. rewrite store_modify.
  destruct (decide (l = l')); congruence.
Qed.

Lemma stopWatcher_elsewhere k w :
  (forall k', k' <> k ->
     watchers (fst (stopWatcher k w)) !! k' = watchers w !! k') /\
  (forall l, watchers w !! k <> Some l ->
     store (fst (stopWatcher k w)) !! l = store w !! l).
Proof.
  unfold stopWatcher.
  destruct (watchers w !! k) as [l0|] eqn:E; cbn [fst];
    [|split; reflexivity].
  split.
  - intros k' Hne. cbn [watchers modify]. apply lookup_delete_ne. congruence.
  - intros l Hl. cbn [store modify].
    rewrite !lookup_alter_ne by congruence. reflexivity.
Qed.

(** Watchers are independent: in a world that keeps the registry
    invariant, a run of [loop] of one watcher changes no [state] object
    but its own, no registration but its own, and not the id counter. *)
Theorem loop_touches_only_its_watcher
    (c : Closure) (p : Poll) (w : World) (st : Watch.state)
    (Hok : world_ok w) (Hst : stateOf c w = Some st)
    (Hid : Watch.id st = c_id c) :
  (forall l, l <> c_state c ->
     store (fst (loop c p w)) !! l = store w !! l) /\
  (forall k, k <> c_id c ->
     watchers (fst (loop c p w)) !! k = watchers w !! k) /\
  nextWatchId (fst (loop c p w)) = nextWatchId w.
Proof.
  assert (Hnext : forall ms w0,
            nextWatchId (scheduleNext c ms w0) = nextWatchId w0).
  { intros ms w0. unfold scheduleNext.
    destruct (store w0 !! c_state c) as [s0|]; [|reflexivity].
    destruct (Watch.stopped s0); reflexivity. }
  destruct (loop_cases c p w st Hst)
    as [(e & Hs & ->)|[(s & Hs & ->)|(s & Hs & Hin & Hact & Hcool & ->)]];
    cbn [fst snd].
  - split; [intros l Hl; apply store_scheduleNext; exact Hl|].
    split; [intros k _; rewrite watchers_scheduleNext; reflexivity|].
    apply Hnext.
  - split; [intros l Hl; rewrite store_scheduleNext, store_modify_ne by exact Hl;
            reflexivity|].
    split; [intros k _; rewrite watchers_scheduleNext; reflexivity|].
    rewrite Hnext. reflexivity.
  - set (w1 := modify (c_state c) (Watch.set_lastAlertAt (now p)) w).
    assert (Hst1 : stateOf c w1 = Some (Watch.set_lastAlertAt (now p) st)).
    { unfold w1. rewrite stateOf_modify, Hst. reflexivity. }
    assert (Hok1 : world_ok w1).
    { apply world_ok_modify; [apply benign_set_lastAlertAt|exact Hok]. }
    destruct (closure_registered c w1 _ Hok1 Hst1 Hid) as (_ & Hcases & _).
    destruct (c_stopAfterAlert c).
    + destruct (stopWatcher_elsewhere (c_id c) w1) as (Hkeep & Hother).
      split; [|split].
      * intros l Hl. rewrite Hother.
        -- unfold w1. apply store_modify_ne. exact Hl.
        -- destruct Hcases as [H|H]; [rewrite H; discriminate|].
           unfold registered in H. rewrite H. congruence.
      * intros k Hk. rewrite (Hkeep k Hk). reflexivity.
      * unfold stopWatcher. destruct (watchers w1 !! c_id c); reflexivity.
    + split; [intros l Hl;
              rewrite store_scheduleNext, store_modify_ne by exact Hl;
              unfold w1; apply store_modify_ne; exact Hl|].
      split; [intros k _; rewrite watchers_scheduleNext; reflexivity|].
      rewrite Hnext. reflexivity.
Qed.

Lemma loop_touches_only_its_watcher_witness :
  store (fst (loop (startedClosure None None)
                   (pollAt t0 (Ok announcedOnly)) twoWatchers)) !! 2%N
  = store twoWatchers !! 2%N.
Proof.
  apply (loop_touches_only_its_watcher (startedClosure None None)
           (pollAt t0 (Ok announcedOnly)) twoWatchers
           (freshState None None)).
  - apply world_ok_start, startedWorld_ok.
  - vm_compute. reflexivity.
  - reflexivity.
  - vm_compute. discriminate.
Defined.

(** ** Mail *)

(** Mail goes out only with an alert: a run of [loop] sends at most one
    mail and decides at most one alert, never a mail without an alert; a
    mail sent went to the watcher's (non-empty) address, with the subject
    that names the player, and [sendEmail] did not fail on it. *)
Theorem mail_only_with_alert :
  forall c p w,
    (length (mails (snd (loop c p w))) <= alerts (snd (loop c p w)))%nat /\
    (alerts (snd (loop c p w)) <= 1)%nat /\
    (forall to subject,
       In (to, subject) (mails (snd (loop c p w))) ->
       c_emailTo c = Some to /\ to <> "" /\ sendFailure p = None /\
       subject = "ALERT: " ++ c_playerName c ++ " just entered the game").
Proof.
  intros c p w. unfold loop.
  destruct (getStatusOnce _ _ _) as [s|e];
    [|cbn; repeat split; try lia; intros ? ? []].
  destruct (store w !! c_state c) as [st|];
    [|cbn; repeat split; try lia; intros ? ? []].
  destruct (negb (Watch.lastInGame st) && Status.inGame s);
    [|cbn; repeat split; try lia; intros ? ? []].
  destruct (_ <=? _); [|cbn; repeat split; try lia; intros ? ? []].
  unfold formatAlertText. cbv zeta.
  assert (Hmail : forall subject html,
    let evs := Alert (now p) subject html :: mailEvents c p subject html in
    (length (mails evs) <= alerts evs)%nat /\ (alerts evs <= 1)%nat /\
    (forall to subject',
       In (to, subject') (mails evs) ->
       c_emailTo c = Some to /\ to <> "" /\ sendFailure p = None /\
       subject' = subject)).
  { intros subject html. cbv zeta. unfold mailEvents, alerts.
    destruct (c_emailTo c) as [to|];
      [|cbn; repeat split; try lia; intros ? ? []].
    destruct (Js.truthy (Some to)) eqn:Et;
      [|cbn; repeat split; try lia; intros ? ? []].
    apply truthy_nonEmpty in Et. destruct Et as (t' & Ht' & Hne).
    inversion Ht'; subst t'.
    destruct (sendFailure p);
      [cbn; repeat split; try lia; intros ? ? []|].
    cbn. split; [lia|]. split; [lia|].
    intros a b' [H|[]]. inversion H; subst. auto. }
  destruct (c_stopAfterAlert c); cbn [snd]; apply Hmail.
Qed.

(** [POST /api/test/email] answers ok exactly when the body has an
    addressee, both SendGrid variables are set and the delivery succeeds;
    every other answer is a 400. A message is handed to the provider
    exactly when there is an addressee and both variables are set, and
    then it is one message, from the configured sender to the addressee,
    with the subject and body of the request or their defaults. *)
Theorem testEmail_outcome :
  forall cfg delivery b,
    (fst (testEmail cfg delivery b) = TestMailOk <->
     nonEmpty (tm_to b) /\ nonEmpty (SENDGRID_API_KEY cfg) /\
     nonEmpty (SENDGRID_FROM cfg) /\ delivery = None) /\
    (forall code msg,
       fst (testEmail cfg delivery b) = TestMailError code msg ->
       code = 400) /\
    (snd (testEmail cfg delivery b) <> [] <->
     nonEmpty (tm_to b) /\ nonEmpty (SENDGRID_API_KEY cfg) /\
     nonEmpty (SENDGRID_FROM cfg)) /\
    (forall m, In m (snd (testEmail cfg delivery b)) ->
       snd (testEmail cfg delivery b) = [m] /\
       tm_to b = Some (m_to m) /\
       SENDGRID_FROM cfg = Some (m_from m) /\
       m_subject m = Js.or_else (tm_subject b) defaultTestSubject /\
       m_html m = Js.or_else (tm_html b) defaultTestHtml).
Proof.
  intros cfg delivery b. unfold testEmail, sendEmail.
  rewrite <- !truthy_nonEmpty.
  destruct (Js.truthy (tm_to b)) eqn:Et; cbn [negb].
  2:{ cbn [fst snd].
      split; [split; [discriminate|intros (H & _); discriminate H]|].
      split; [intros code msg H; inversion H; reflexivity|].
      split; [split; [intros H; contradiction H; reflexivity
                     |intros (H & _); discriminate H]|].
      intros m []. }
  destruct (Js.truthy (SENDGRID_API_KEY cfg)) eqn:Ek; cbn [negb orb].
  2:{ cbn [fst snd].
      split; [split; [discriminate|intros (_ & H & _); discriminate H]|].
      split; [intros code msg H; inversion H; reflexivity|].
      split; [split; [intros H; contradiction H; reflexivity
                     |intros (_ & H & _); discriminate H]|].
      intros m []. }
  destruct (Js.truthy (SENDGRID_FROM cfg)) eqn:Ef; cbn [negb orb].
  2:{ cbn [fst snd].
      split; [split; [discriminate|intros (_ & _ & H & _); discriminate H]|].
      split; [intros code msg H; inversion H; reflexivity|].
      split; [split; [intros H; contradiction H; reflexivity
                     |intros (_ & _ & H); discriminate H]|].
      intros m []. }
  apply truthy_nonEmpty in Et. destruct Et as (to & Hto & _).
  apply truthy_nonEmpty in Ef. destruct Ef as (from & Hfrom & _).
  rewrite Hto, Hfrom. cbn [default from_option id].
  destruct delivery as [e|]; cbn [fst snd].
  - split; [split; [discriminate|intros (_ & _ & _ & H); discriminate H]|].
    split; [intros code msg H; inversion H; reflexivity|].
    split; [split; [auto|discriminate]|].
    intros m [<-|[]]. repeat split; reflexivity.
  - split; [split; [auto|reflexivity]|].
    split; [discriminate|].
    split; [split; [auto|discriminate]|].
    intros m [<-|[]]. repeat split; reflexivity.
Qed.

(** ** Simulation mode, end to end *)

(** A watcher started in simulation mode through the route needs neither
    the data client nor a feed: whatever the provider answers (or fails
    to), the route registers it with the sentinel [gamePk], and its first
    poll, whatever its feed request would have brought, decides one alert
    (the cooldown of the body, 300 seconds by default, not exceeding the
    clock); with the auto-stop of the body left on, the watcher is then
    gone: the registry and the list of watchers are what they were before
    the start. *)
Theorem simulated_watch_alerts_and_leaves
    (tz : Z) (dc : DataClient) (today : Z) (b : StartBody) (w : World)
    (p : Poll)
    (Hok : world_ok w)
    (Hsim : b_simulate b = Some true)
    (Hname : nonEmpty (b_playerName b))
    (Hstop : default true (b_stopAfterAlert b) = true)
    (Hcool : default 300 (b_cooldownSec b) * 1000 <= now p) :
  exists w1 c,
    watchStart tz dc today b w
    = (w1, StartOk (pretty (nextWatchId w)) "(simulation)", Some c) /\
    alertTimes (snd (loop c p w1)) = [now p] /\
    watchers (fst (loop c p w1)) = watchers w /\
    listWatchers (fst (loop c p w1)) = listWatchers w.
Proof.
  destruct (fresh_id w Hok) as [Hfresh Hstore].
  unfold watchStart. cbv zeta.
  apply truthy_nonEmpty in Hname. rewrite Hname, Hsim. cbn [negb].
  cbn [default from_option id resolveGamePkIfNeeded].
  unfold resolveGamePkIfNeeded. cbv iota.
  unfold startAdaptiveWatcher. cbv zeta.
  eexists _, _. split; [reflexivity|].
  set (c := {| c_id := pretty (nextWatchId w) |}).
  set (st0 := {| Watch.id := pretty (nextWatchId w) |}).
  set (w1 := {| watchers := <[pretty (nextWatchId w) := nextWatchId w]>
                              (watchers w) |}).
  assert (Hst : stateOf c w1 = Some st0) by apply lookup_insert_eq.
  assert (Hs : statusOf c p = Ok simulatedStatus) by reflexivity.
  assert (Hcool' : c_cooldownSec c * 1000 <= now p - Watch.lastAlertAt st0).
  { change (default 300 (b_cooldownSec b) * 1000 <= now p - 0). lia. }
  split; [exact (loop_alert_times c p w1 st0 simulatedStatus Hst Hs
                   eq_refl eq_refl Hcool')|].
  rewrite (loop_alert c p w1 simulatedStatus st0 Hs Hst eq_refl eq_refl
             Hcool').
  cbn [fst]. replace (c_stopAfterAlert c) with true by (symmetry; exact Hstop).
  assert (Hreg : registered c w1) by apply lookup_insert_eq.
  destruct (stopWatcher_registered c
              (modify (c_state c) (Watch.set_lastAlertAt (now p)) w1)
              (Watch.set_lastAlertAt (now p) st0)) as [_ Hw'];
    [exact Hreg|rewrite stateOf_modify, Hst; reflexivity|].
  cbv zeta in Hw'.
  assert (Hw : watchers
                 (fst (stopWatcher (c_id c)
                    (modify (c_state c) (Watch.set_lastAlertAt (now p)) w1)))
               = watchers w).
  { rewrite Hw'. cbn [watchers modify w1 c c_id].
    apply delete_insert_id. exact Hfresh. }
  split; [exact Hw|].
  apply listWatchers_ext; [exact Hw|].
  intros k l Hk. rewrite Hw in Hk.
  assert (Hl : l <> nextWatchId w).
  { intros ->. destruct Hok as [H1 _].
    destruct (H1 _ _ Hk) as (_ & st & Hst' & _). congruence. }
  rewrite (proj2 (stopWatcher_elsewhere (c_id c)
             (modify (c_state c) (Watch.set_lastAlertAt (now p)) w1))).
  - rewrite store_modify_ne by exact Hl.
    cbn [store w1]. apply lookup_insert_ne. congruence.
  - rewrite watchers_modify. unfold registered in Hreg. rewrite Hreg.
    cbn [c c_state]. congruence.
Qed.

Lemma simulated_watch_alerts_and_leaves_witness :
  exists w1 c,
    watchStart 420 deadClient oct15 simulatedBody (startedWorld None None)
    = (w1, StartOk (pretty (nextWatchId (startedWorld None None)))
             "(simulation)", Some c) /\
    alertTimes (snd (loop c timedOut w1)) = [now timedOut] /\
    watchers (fst (loop c timedOut w1)) = watchers (startedWorld None None) /\
    listWatchers (fst (loop c timedOut w1))
    = listWatchers (startedWorld None None).
Proof.
  apply (simulated_watch_alerts_and_leaves 420 deadClient oct15
           simulatedBody (startedWorld None None) timedOut).
  - apply startedWorld_ok.
  - reflexivity.
  - exists "Cade Doughty". split; [reflexivity|discriminate].
  - reflexivity.
  - vm_compute. discriminate.
Defined.
